(** * The open-wa driver server (server.js): dispatch and poll delivery

    A shallow embedding of the Express handlers of the driver server
    ([GET /status], [GET /get_groups], [POST /open_whatsapp],
    [POST /send_message], [POST /send_poll]) and of the string operations
    they use, followed by the properties of the dispatch engine.

    Scope of the model.
    - A JavaScript string is modelled by a [string] (for text outside
      ASCII, its UTF-8 bytes).  The handlers only test for ['@'], delete
      the units outside ['0'..'9'], compare with the ASCII suffix
      ["@g.us"] and concatenate; each of these acts unit by unit, and none
      of these ASCII units occurs inside the encoding of another character.
    - A request body is the JSON object left in [req.body] by
      [bodyParser.json()], read at the types the API documents
      ([contact], [message], [question]: strings; [options]: an array of
      strings); a member that is absent (or [null]) is [None].
    - The open-wa client is an external collaborator: a record of methods
      whose calls either resolve or reject with an [Error].  Every call a
      handler awaits is recorded, in order, next to the handler's result.
    - The handlers read the module variables [client] and [clientReady]
      and never assign them, so a handler is a function of the state. *)

From Stdlib Require Import String Ascii List Bool Arith Lia.
From Stdlib Require Import DecimalString DecimalNat.
Import ListNotations.

Local Open Scope list_scope.
Local Open Scope string_scope.

(** * JavaScript strings and arrays *)

Module Js.

(** The character class [\d] of a RegExp without the [u] flag: ['0'..'9']. *)
Definition digit (c : ascii) : bool :=
  match c with
  | "0" | "1" | "2" | "3" | "4" | "5" | "6" | "7" | "8" | "9" => true
  | _ => false
  end%char.

(** The character class [[^\d]]. *)
Definition non_digit (c : ascii) : bool := negb (digit c).

(** [s.replace(/[cls]/g, replacement)] for a one-character class [cls]:
    every unit of the class is replaced, the others are kept in order. *)
Fixpoint replace (cls : ascii -> bool) (replacement s : string) : string :=
  match s with
  | EmptyString => EmptyString
  | String c rest =>
      if cls c then replacement ++ replace cls replacement rest
      else String c (replace cls replacement rest)
  end.

(** [s.startsWith(searchString)] at position 0. *)
Definition startsWith (s searchString : string) : bool :=
  String.prefix searchString s.

(** [s.includes(searchString)]: [searchString] occurs at some index. *)
Fixpoint includes (s searchString : string) : bool :=
  startsWith s searchString
  || match s with
     | EmptyString => false
     | String _ rest => includes rest searchString
     end.

(** [s.endsWith(searchString)]: with [start = len - searchLength], false
    when [start < 0], else the units from [start] to the end are compared
    with [searchString]. *)
Definition endsWith (s searchString : string) : bool :=
  let len := String.length s in
  let searchLength := String.length searchString in
  if Nat.ltb len searchLength then false
  else String.eqb (String.substring (len - searchLength) searchLength s)
                  searchString.

(** [`${n}`] for a non-negative integer [n]: its decimal digits. *)
Definition number_to_string (n : nat) : string :=
  NilEmpty.string_of_uint (Nat.to_uint n).

(** [array.map((x, i) => f x i)]: the callback receives the element and
    its 0-based index. *)
Fixpoint map_from {A B : Type} (f : A -> nat -> B) (i : nat) (l : list A)
  : list B :=
  match l with
  | [] => []
  | x :: rest => f x i :: map_from f (S i) rest
  end.

Definition map {A B : Type} (f : A -> nat -> B) (l : list A) : list B :=
  map_from f 0 l.

End Js.

(** * The open-wa client and the calls made on it *)

(** A thrown [Error]; the handlers read its [message] only. *)
Module Error.
Record t : Type := { message : string }.
End Error.

(** A button [{ id, text }] of [sendButtons]. *)
Module Button.
Record t : Type := { id : string; text : string }.
End Button.

(** A row [{ rowId, title }] of a list message. *)
Module Row.
Record t : Type := { rowId : string; title : string }.
End Row.

(** A section [{ title, rows }] of a list message. *)
Module ListSection.
Record t : Type := { title : string; rows : list Row.t }.
End ListSection.

(** A chat as [getAllChats] returns it, with the members [get_groups]
    reads; [groupMetadata] and its [participants] may be missing. *)
Module Chat.
Record GroupMetadata : Type := { participants : option (list string) }.
Record t : Type :=
  { isGroup : bool;
    name : string;
    id : string;
    groupMetadata : option GroupMetadata }.
End Chat.

(** How an awaited promise settles. *)
Inductive Settled (A : Type) : Type :=
| Resolved (value : A)
| Rejected (reason : Error.t).
Arguments Resolved {A} value.
Arguments Rejected {A} reason.

(** The methods of the open-wa client that server.js calls. *)
Record Client : Type :=
  { getAllChats : Settled (list Chat.t);
    sendText : string -> string -> Settled unit;
    sendPoll : string -> string -> list string -> Settled unit;
    sendButtons :
      string -> string -> list Button.t -> string -> string -> Settled unit;
    sendListMessage :
      string -> list ListSection.t -> string -> string -> string ->
      Settled unit }.

(** One call on the client, with its arguments. *)
Inductive TransportCall : Type :=
| GetAllChats
| SendText (chatId message : string)
| SendPoll (chatId name : string) (options : list string)
| SendButtons (chatId body : string) (buttons : list Button.t)
              (title footer : string)
| SendListMessage (chatId : string) (sections : list ListSection.t)
                  (title description actionText : string).

(** How the client settles a send call. *)
Definition transport_result (client : Client) (call : TransportCall)
  : Settled unit :=
  match call with
  | GetAllChats =>
      match getAllChats client with
      | Resolved _ => Resolved tt
      | Rejected e => Rejected e
      end
  | SendText chatId message => sendText client chatId message
  | SendPoll chatId name options => sendPoll client chatId name options
  | SendButtons chatId body buttons title footer =>
      sendButtons client chatId body buttons title footer
  | SendListMessage chatId sections title description actionText =>
      sendListMessage client chatId sections title description actionText
  end.

(** What a recorded call was addressed to. *)
Definition call_chatId (call : TransportCall) : option string :=
  match call with
  | GetAllChats => None
  | SendText chatId _ => Some chatId
  | SendPoll chatId _ _ => Some chatId
  | SendButtons chatId _ _ _ _ => Some chatId
  | SendListMessage chatId _ _ _ _ => Some chatId
  end.

(** The description of a list message. *)
Definition list_description (call : TransportCall) : option string :=
  match call with
  | SendListMessage _ _ _ description _ => Some description
  | _ => None
  end.

(** * Async functions

    The run of an [async] function body: the client calls it awaited, in
    order, and how it settled.  A rejected [await] throws; the calls made
    before the throw stay made. *)

Record Async (A : Type) : Type :=
  { calls : list TransportCall;
    settled : Settled A }.
Arguments calls {A} _.
Arguments settled {A} _.

Module AsyncMonad.

Definition ret {A : Type} (a : A) : Async A :=
  {| calls := []; settled := Resolved a |}.

Definition bind {A B : Type} (m : Async A) (k : A -> Async B) : Async B :=
  match settled m with
  | Resolved a =>
      {| calls := (calls m ++ calls (k a))%list; settled := settled (k a) |}
  | Rejected e => {| calls := calls m; settled := Rejected e |}
  end.

(** [try { body } catch (error) { handler }]. *)
Definition try_catch {A : Type} (body : Async A)
           (handler : Error.t -> Async A) : Async A :=
  match settled body with
  | Resolved a => body
  | Rejected e =>
      {| calls := (calls body ++ calls (handler e))%list;
         settled := settled (handler e) |}
  end.

(** [await client.method(args)]: the call is made and its promise awaited. *)
Definition await {A : Type} (call : TransportCall) (promise : Settled A)
  : Async A :=
  {| calls := [call]; settled := promise |}.

Declare Scope async_scope.
Delimit Scope async_scope with async.
Notation "x <- m ;; k" := (bind m (fun x => k))
  (at level 61, m at next level, right associativity) : async_scope.
Notation "m ;; k" := (bind m (fun _ => k))
  (at level 61, right associativity) : async_scope.

End AsyncMonad.
Import AsyncMonad.
Local Open Scope async_scope.

(** * HTTP responses *)

#[local] Set Warnings "-register-all".

(** The JSON values the handlers send. *)
Inductive Json : Type :=
| JString (s : string)
| JNumber (n : nat)
| JBool (b : bool)
| JArray (elements : list Json)
| JObject (members : list (string * Json)).

Record Response : Type :=
  { statusCode : nat;
    body : Json }.

(** [res.json(obj)]: status 200. *)
Definition res_json (obj : Json) : Response :=
  {| statusCode := 200; body := obj |}.

(** [res.status(code).json(obj)]. *)
Definition res_status_json (code : nat) (obj : Json) : Response :=
  {| statusCode := code; body := obj |}.

(** The members of [req.body] that the handlers destructure. *)
Module Body.
Record t : Type :=
  { contact : option string;
    message : option string;
    question : option string;
    options : option (list string) }.
End Body.

(** * server.js *)

(** The module-level variables [client] and [clientReady]. *)
Record ServerState : Type :=
  { client : option Client;
    clientReady : bool }.

(** [let client = null; let clientReady = false;] *)
Definition initial_state : ServerState :=
  {| client := None; clientReady := false |}.

(** [initializeClient()], given how [wa.create(...)] settles and how the
    registration [client.onMessage(...)] completes on the created client:
    the client is stored as soon as it is created, [clientReady] is set
    after the registration, and the [catch] block resets [clientReady];
    nothing is thrown. *)
Definition initializeClient (create : Settled Client)
           (onMessage : Client -> Settled unit) (st : ServerState)
  : ServerState :=
  match create with
  | Resolved c =>
      match onMessage c with
      | Resolved _ => {| client := Some c; clientReady := true |}
      | Rejected _ => {| client := Some c; clientReady := false |}
      end
  | Rejected _ => {| client := client st; clientReady := false |}
  end.


(** [g.groupMetadata?.participants?.length || 0] *)
Definition members (g : Chat.t) : nat :=
  match Chat.groupMetadata g with
  | Some metadata =>
      match Chat.participants metadata with
      | Some participants => List.length participants
      | None => 0
      end
  | None => 0
  end.

(** [app.get('/get_groups', ...)] *)
Definition get_groups (st : ServerState) : Async Response :=
  match clientReady st, client st with
  | true, Some client =>
      try_catch
        (chats <- await GetAllChats (getAllChats client) ;;
         let groups :=
           List.map (fun g => JObject [("name", JString (Chat.name g));
                                       ("id", JString (Chat.id g));
                                       ("members", JNumber (members g))])
                    (List.filter Chat.isGroup chats) in
         ret (res_json (JObject [("status", JString "ok");
                                 ("groups", JArray groups)])))
        (fun error =>
           ret (res_status_json 500
                  (JObject [("status", JString "error");
                            ("message", JString (Error.message error))])))
  | _, _ =>
      ret (res_status_json 500
             (JObject [("status", JString "error");
                       ("message", JString "WhatsApp client not ready")]))
  end.

(** [app.post('/open_whatsapp', ...)]: tests [clientReady] only. *)
Definition open_whatsapp (st : ServerState) : Async Response :=
  if negb (clientReady st) then
    ret (res_status_json 500
           (JObject [("status", JString "error");
                     ("message", JString "WhatsApp client not ready")]))
  else ret (res_json (JObject [("status", JString "ok")])).

(** The [chatId] of [/send_message] (line 102):
    [`${contact.replace(/[^\d]/g, '')}@c.us`]. *)
Definition send_message_chatId (contact : string) : string :=
  Js.replace Js.non_digit "" contact ++ "@c.us".

(** [app.post('/send_message', ...)] *)
Definition send_message (st : ServerState) (req : Body.t) : Async Response :=
  match clientReady st, client st with
  | true, Some client =>
      match Body.contact req, Body.message req with
      | Some contact, Some message =>
          if (contact =? "") || (message =? "") then
            ret (res_status_json 400
                   (JObject [("status", JString "error");
                             ("message", JString "Missing contact or message")]))
          else
            try_catch
              (let chatId := send_message_chatId contact in
               await (SendText chatId message) (sendText client chatId message) ;;
               ret (res_json (JObject [("status", JString "ok")])))
              (fun error =>
                 ret (res_status_json 500
                        (JObject [("status", JString "error");
                                  ("message", JString (Error.message error))])))
      | _, _ =>
          ret (res_status_json 400
                 (JObject [("status", JString "error");
                           ("message", JString "Missing contact or message")]))
      end
  | _, _ =>
      ret (res_status_json 500
             (JObject [("status", JString "error");
                       ("message", JString "WhatsApp client not ready")]))
  end.

(** The [chatId] of [/send_poll] (line 124):
    [contact.includes('@') ? contact : `${contact.replace(/[^\d]/g, '')}@c.us`]. *)
Definition send_poll_chatId (contact : string) : string :=
  if Js.includes contact "@" then contact
  else Js.replace Js.non_digit "" contact ++ "@c.us".

(** The rest of the [try] block of [/send_poll] (lines 126-148), from the
    computed [chatId] on: native poll for a group, else buttons for up to
    three options, else a list message. *)
Definition deliverPoll (client : Client) (chatId question : string)
           (options : list string) : Async Response :=
  if Js.endsWith chatId "@g.us" then
    await (SendPoll chatId question options)
          (sendPoll client chatId question options) ;;
    ret (res_json (JObject [("status", JString "ok");
                            ("method", JString "poll")]))
  else if (List.length options <=? 3)%nat then
    let buttons :=
      Js.map (fun opt i =>
                {| Button.id := "opt" ++ Js.number_to_string (i + 1);
                   Button.text := opt |})
             options in
    await (SendButtons chatId question buttons "Poll" "Reply by tapping a button")
          (sendButtons client chatId question buttons
                       "Poll" "Reply by tapping a button") ;;
    ret (res_json (JObject [("status", JString "ok");
                            ("method", JString "buttons")]))
  else
    let rows :=
      Js.map (fun opt i =>
                {| Row.rowId := "opt" ++ Js.number_to_string (i + 1);
                   Row.title := opt |})
             options in
    let sections := [{| ListSection.title := "Options";
                        ListSection.rows := rows |}] in
    await (SendListMessage chatId sections "Poll" question "Choose an option")
          (sendListMessage client chatId sections
                           "Poll" question "Choose an option") ;;
    ret (res_json (JObject [("status", JString "ok");
                            ("method", JString "list")])).

(** [app.post('/send_poll', ...)] *)
Definition send_poll (st : ServerState) (req : Body.t) : Async Response :=
  match clientReady st, client st with
  | true, Some client =>
      match Body.contact req, Body.question req, Body.options req with
      | Some contact, Some question, Some options =>
          if (contact =? "") || (question =? "") || (List.length options =? 0)%nat
          then
            ret (res_status_json 400
                   (JObject [("status", JString "error");
                             ("message", JString "Missing required fields")]))
          else
            try_catch
              (let chatId := send_poll_chatId contact in
               deliverPoll client chatId question options)
              (fun error =>
                 ret (res_status_json 500
                        (JObject [("status", JString "error");
                                  ("message", JString (Error.message error))])))
      | _, _, _ =>
          ret (res_status_json 400
                 (JObject [("status", JString "error");
                           ("message", JString "Missing required fields")]))
      end
  | _, _ =>
      ret (res_status_json 500
             (JObject [("status", JString "error");
                       ("message", JString "WhatsApp client not ready")]))
  end.

(** * Names used in the statements *)

(** [{ status: 'error', message }] sent with [res.status(code)]. *)
Definition error_response (code : nat) (message : string) : Response :=
  res_status_json code
    (JObject [("status", JString "error"); ("message", JString message)]).

(** [{ status: 'ok', method }], status 200. *)
Definition ok_method (method : string) : Response :=
  res_json (JObject [("status", JString "ok"); ("method", JString method)]).

Definition not_ready_response : Response :=
  error_response 500 "WhatsApp client not ready".

(** The guard [!clientReady || !client] of the three handlers that use the
    client. *)
Definition gate_closed (st : ServerState) : Prop :=
  clientReady st = false \/ client st = None.

(** Every unit of [s] is in ['0'..'9']. *)
Definition all_digits (s : string) : bool :=
  forallb Js.digit (list_ascii_of_string s).

(** No unit of [s] is in ['0'..'9']. *)
Definition no_digits (s : string) : bool :=
  forallb Js.non_digit (list_ascii_of_string s).

(** The selection policy as the specification words it (section 4.3): a
    table over the chat kind and the number of options. *)
Definition decision_table (group : bool) (count : nat) : string :=
  if group then "poll"
  else if (count <=? 3)%nat then "buttons"
  else "list".

(** JavaScript falsiness of a string member: absent or empty. *)
Definition falsy (field : option string) : bool :=
  match field with
  | Some s => s =? ""
  | None => true
  end.

(** The states the module variables go through: the initial one, and the
    one each run of [initializeClient] leaves. *)
Inductive reachable : ServerState -> Prop :=
| reachable_initial : reachable initial_state
| reachable_initialized (create : Settled Client)
                        (onMessage : Client -> Settled unit)
                        (st : ServerState) :
    reachable st -> reachable (initializeClient create onMessage st).

(** Whether a recorded call is the native poll primitive. *)
Definition is_native_poll (call : TransportCall) : bool :=
  match call with
  | SendPoll _ _ _ => true
  | _ => false
  end.

(** The [method] that names a poll primitive in the response. *)
Definition call_method (call : TransportCall) : option string :=
  match call with
  | SendPoll _ _ _ => Some "poll"
  | SendButtons _ _ _ _ _ => Some "buttons"
  | SendListMessage _ _ _ _ _ => Some "list"
  | _ => None
  end.

(** The option labels a poll call carries, in the order sent. *)
Definition call_labels (call : TransportCall) : option (list string) :=
  match call with
  | SendPoll _ _ options => Some options
  | SendButtons _ _ buttons _ _ => Some (List.map Button.text buttons)
  | SendListMessage _ sections _ _ _ =>
      Some (List.flat_map
              (fun section => List.map Row.title (ListSection.rows section))
              sections)
  | _ => None
  end.

(** The identifiers a poll call gives its options ([None] for the native
    poll, which has none). *)
Definition call_option_ids (call : TransportCall) : option (list string) :=
  match call with
  | SendButtons _ _ buttons _ _ => Some (List.map Button.id buttons)
  | SendListMessage _ sections _ _ _ =>
      Some (List.flat_map
              (fun section => List.map Row.rowId (ListSection.rows section))
              sections)
  | _ => None
  end.

(** One entry of the [groups] array of [/get_groups]. *)
Definition group_entry (g : Chat.t) : Json :=
  JObject [("name", JString (Chat.name g));
           ("id", JString (Chat.id g));
           ("members", JNumber (members g))].

(** ** Stub transports *)

(** A client on which every call resolves. *)
Definition resolving_client : Client :=
  {| getAllChats := Resolved [];
     sendText := fun _ _ => Resolved tt;
     sendPoll := fun _ _ _ => Resolved tt;
     sendButtons := fun _ _ _ _ _ => Resolved tt;
     sendListMessage := fun _ _ _ _ _ => Resolved tt |}.

(** A client on which every call rejects with [Error(msg)]. *)
Definition rejecting_client (msg : string) : Client :=
  let e := {| Error.message := msg |} in
  {| getAllChats := Rejected e;
     sendText := fun _ _ => Rejected e;
     sendPoll := fun _ _ _ => Rejected e;
     sendButtons := fun _ _ _ _ _ => Rejected e;
     sendListMessage := fun _ _ _ _ _ => Rejected e |}.

Definition ready_with (c : Client) : ServerState :=
  {| client := Some c; clientReady := true |}.

Definition poll_request (contact question : string) (options : list string)
  : Body.t :=
  {| Body.contact := Some contact; Body.message := None;
     Body.question := Some question; Body.options := Some options |}.

Definition message_request (contact message : string) : Body.t :=
  {| Body.contact := Some contact; Body.message := Some message;
     Body.question := None; Body.options := None |}.

(** A client whose chats are a 1:1 chat and a group without metadata. *)
Definition family_group : Chat.t :=
  {| Chat.isGroup := true; Chat.name := "Family";
     Chat.id := "31612345678-1500000000@g.us";
     Chat.groupMetadata := None |}.

Definition direct_chat : Chat.t :=
  {| Chat.isGroup := false; Chat.name := "Anna";
     Chat.id := "31612345678@c.us";
     Chat.groupMetadata := None |}.

Definition two_chats_client : Client :=
  {| getAllChats := Resolved [direct_chat; family_group];
     sendText := fun _ _ => Resolved tt;
     sendPoll := fun _ _ _ => Resolved tt;
     sendButtons := fun _ _ _ _ _ => Resolved tt;
     sendListMessage := fun _ _ _ _ _ => Resolved tt |}.

(** The body [{}]: every member absent. *)
Definition empty_body : Body.t :=
  {| Body.contact := None; Body.message := None;
     Body.question := None; Body.options := None |}.

(** * Facts about the string operations *)

Section StringFacts.

Lemma length_append (p t : string) :
  String.length (p ++ t) = String.length p + String.length t.
Proof. induction p as [|c p IH]; simpl; [reflexivity | now rewrite IH]. Qed.

Lemma append_empty_r (s : string) : s ++ "" = s.
Proof. induction s as [|c s IH]; simpl; [reflexivity | now rewrite IH]. Qed.

Lemma list_ascii_of_append (a b : string) :
  list_ascii_of_string (a ++ b)
  = (list_ascii_of_string a ++ list_ascii_of_string b)%list.
Proof. induction a as [|x a IH]; simpl; [reflexivity | now rewrite IH]. Qed.

Lemma substring_whole (s : string) : substring 0 (String.length s) s = s.
Proof. induction s as [|c s IH]; simpl; [reflexivity | now rewrite IH]. Qed.

Lemma substring_skip_prefix (p t : string) :
  substring (String.length p) (String.length t) (p ++ t) = t.
Proof.
  induction p as [|c p IH]; simpl; [apply substring_whole | exact IH].
Qed.

(** Splitting a string at an index not beyond its end. *)
Lemma substring_split (s : string) :
  forall n, n <= String.length s ->
  exists p, s = p ++ substring n (String.length s - n) s.
Proof.
  induction s as [|c s IH]; intros [|n] Hn; simpl in *.
  - exists ""; reflexivity.
  - lia.
  - exists ""; simpl. now rewrite substring_whole.
  - destruct (IH n) as [p Hp]; [lia|].
    exists (String c p); simpl. now rewrite <- Hp.
Qed.

(** [endsWith] holds exactly of the strings with that suffix. *)
Lemma endsWith_iff (s t : string) :
  Js.endsWith s t = true <-> exists p, s = p ++ t.
Proof.
  unfold Js.endsWith; split.
  - destruct (Nat.ltb_spec (String.length s) (String.length t)) as [Hlt|Hle];
      [discriminate|].
    intros Heq; apply String.eqb_eq in Heq.
    destruct (substring_split s (String.length s - String.length t))
      as [p Hp]; [lia|].
    exists p.
    replace (String.length s - (String.length s - String.length t))
      with (String.length t) in Hp by lia.
    now rewrite Heq in Hp.
  - intros [p ->]. rewrite length_append.
    destruct (Nat.ltb_spec (String.length p + String.length t)
                           (String.length t)) as [Hlt|Hle]; [lia|].
    replace (String.length p + String.length t - String.length t)
      with (String.length p) by lia.
    rewrite substring_skip_prefix. apply String.eqb_refl.
Qed.

(** Two suffixes of one string that have the same length are equal. *)
Lemma endsWith_same_length (s t u : string) :
  String.length t = String.length u ->
  Js.endsWith s t = true -> Js.endsWith s u = true -> t = u.
Proof.
  unfold Js.endsWith; intros <-.
  destruct (Nat.ltb (String.length s) (String.length t)); [discriminate|].
  intros Ht Hu. apply String.eqb_eq in Ht, Hu. congruence.
Qed.

(** [includes] of a one-unit string tests membership of the unit. *)
Lemma includes_unit_iff (s : string) (c : ascii) :
  Js.includes s (String c "") = true <-> In c (list_ascii_of_string s).
Proof.
  induction s as [|a s IH]; simpl.
  - split; [discriminate | tauto].
  - unfold Js.startsWith; simpl.
    destruct (ascii_dec c a) as [->|Hne].
    + destruct s; simpl; tauto.
    + simpl. rewrite IH. split; [tauto|]. intros [H|H]; [congruence | exact H].
Qed.

(** Deleting the non-digits keeps exactly the digits, in order. *)
Lemma replace_non_digit_filter (s : string) :
  list_ascii_of_string (Js.replace Js.non_digit "" s)
  = filter Js.digit (list_ascii_of_string s).
Proof.
  induction s as [|c s IH]; simpl; [reflexivity|].
  unfold Js.non_digit at 1. destruct (Js.digit c); simpl; congruence.
Qed.

Lemma replace_non_digit_all_digits (s : string) :
  all_digits (Js.replace Js.non_digit "" s) = true.
Proof.
  unfold all_digits. rewrite replace_non_digit_filter.
  apply forallb_forall. intros c Hc. apply filter_In in Hc. tauto.
Qed.

Lemma replace_non_digit_append (a b : string) :
  Js.replace Js.non_digit "" (a ++ b)
  = Js.replace Js.non_digit "" a ++ Js.replace Js.non_digit "" b.
Proof.
  induction a as [|c a IH]; simpl; [reflexivity|].
  destruct (Js.non_digit c); simpl; now rewrite IH.
Qed.

Lemma replace_non_digit_digits (d : string) :
  all_digits d = true -> Js.replace Js.non_digit "" d = d.
Proof.
  unfold all_digits.
  induction d as [|c d IH]; simpl; [reflexivity|].
  intros H. apply andb_true_iff in H as [Hc Hd].
  unfold Js.non_digit. rewrite Hc. cbn [negb]. f_equal. exact (IH Hd).
Qed.

Lemma replace_non_digit_no_digits (s : string) :
  no_digits s = true -> Js.replace Js.non_digit "" s = "".
Proof.
  unfold no_digits.
  induction s as [|c s IH]; simpl; [reflexivity|].
  intros H. apply andb_true_iff in H as [Hc Hs].
  rewrite Hc. exact (IH Hs).
Qed.

(** [Js.map] keeps the length and applies the callback at each index. *)
Lemma map_from_length {A B : Type} (f : A -> nat -> B) (l : list A) :
  forall i, List.length (Js.map_from f i l) = List.length l.
Proof. induction l as [|x l IH]; intros i; simpl; [reflexivity | now rewrite IH]. Qed.

Lemma map_from_nth {A B : Type} (f : A -> nat -> B) (l : list A) :
  forall i k x, nth_error l k = Some x ->
  nth_error (Js.map_from f i l) k = Some (f x (i + k)).
Proof.
  induction l as [|y l IH]; intros i [|k] x H; simpl in *; try discriminate.
  - injection H as ->. now rewrite Nat.add_0_r.
  - rewrite (IH (S i) k x H). f_equal. f_equal. lia.
Qed.

End StringFacts.

(** * Facts about async runs *)

Section AsyncFacts.

(** One awaited call followed by the response. *)
Lemma await_then_respond (call : TransportCall) (promise : Settled unit)
      (r : Response) :
  calls (await call promise ;; ret r) = [call]
  /\ settled (await call promise ;; ret r)
     = match promise with
       | Resolved _ => Resolved r
       | Rejected e => Rejected e
       end.
Proof. unfold bind, await, ret; destruct promise; split; reflexivity. Qed.

(** A [catch] block that only responds adds no call. *)
Lemma try_catch_respond {A : Type} (m : Async A) (f : Error.t -> A) :
  calls (try_catch m (fun e => ret (f e))) = calls m
  /\ settled (try_catch m (fun e => ret (f e)))
     = match settled m with
       | Resolved a => Resolved a
       | Rejected e => Resolved (f e)
       end.
Proof.
  unfold try_catch, ret. destruct (settled m) eqn:E; cbn.
  - now rewrite E.
  - now rewrite app_nil_r.
Qed.

(** The shape of the [try] blocks of the send handlers: one awaited call,
    then the response; the [catch] block answers HTTP 500 with the error's
    message. *)
Lemma try_await_respond (call : TransportCall) (promise : Settled unit)
      (r : Response) :
  calls (try_catch (await call promise ;; ret r)
                   (fun error => ret (error_response 500 (Error.message error))))
  = [call]
  /\ settled (try_catch (await call promise ;; ret r)
                (fun error => ret (error_response 500 (Error.message error))))
     = match promise with
       | Resolved _ => Resolved r
       | Rejected e => Resolved (error_response 500 (Error.message e))
       end.
Proof.
  unfold try_catch, bind, await, ret; destruct promise; split; reflexivity.
Qed.

End AsyncFacts.

(** * The readiness gate *)

Section ReadinessGate.

Variable st : ServerState.
Variable req : Body.t.

Lemma gate_send_message :
  gate_closed st -> send_message st req = ret not_ready_response.
Proof.
  unfold gate_closed, send_message.
  destruct (clientReady st), (client st); intros [H|H];
    try discriminate; reflexivity.
Qed.

Lemma gate_send_poll :
  gate_closed st -> send_poll st req = ret not_ready_response.
Proof.
  unfold gate_closed, send_poll.
  destruct (clientReady st), (client st); intros [H|H];
    try discriminate; reflexivity.
Qed.

Lemma gate_get_groups :
  gate_closed st -> get_groups st = ret not_ready_response.
Proof.
  unfold gate_closed, get_groups.
  destruct (clientReady st), (client st); intros [H|H];
    try discriminate; reflexivity.
Qed.

Lemma gate_open_whatsapp :
  clientReady st = false -> open_whatsapp st = ret not_ready_response.
Proof. unfold open_whatsapp. now intros ->. Qed.

(** A session on which the guard lets a request through. *)
Lemma gate_open_inv :
  ~ gate_closed st -> clientReady st = true /\ client st <> None.
Proof.
  unfold gate_closed. destruct (clientReady st), (client st); intros H;
    solve [ split; [reflexivity | discriminate]
          | exfalso; apply H; auto ].
Qed.

End ReadinessGate.

(** [initializeClient] sets [clientReady] only together with a client. *)
Lemma initializeClient_ready (create : Settled Client)
      (onMessage : Client -> Settled unit) (st : ServerState) :
  clientReady (initializeClient create onMessage st) = true ->
  exists c, create = Resolved c
            /\ client (initializeClient create onMessage st) = Some c.
Proof.
  unfold initializeClient.
  destruct create as [c|e]; [|discriminate].
  destruct (onMessage c); [|discriminate].
  intros _. now exists c.
Qed.

(** * The chat identifier *)

(** In [/send_poll] a contact that contains ['@'] is used as it is. *)
Lemma send_poll_chatId_passthrough (contact : string) :
  Js.includes contact "@" = true -> send_poll_chatId contact = contact.
Proof. unfold send_poll_chatId. now intros ->. Qed.

Lemma send_poll_chatId_digits (contact : string) :
  Js.includes contact "@" = false ->
  send_poll_chatId contact = send_message_chatId contact.
Proof. unfold send_poll_chatId, send_message_chatId. now intros ->. Qed.

(** A string with the suffix ["@g.us"] contains ['@']. *)
Lemma group_suffix_includes_at (s : string) :
  Js.endsWith s "@g.us" = true -> Js.includes s "@" = true.
Proof.
  intros H. apply endsWith_iff in H as [p ->].
  apply includes_unit_iff. rewrite list_ascii_of_append.
  apply in_or_app. right. simpl. auto.
Qed.

(** The identifiers [/send_message] leaves unchanged are the strings
    [<digits>@c.us]. *)
Lemma send_message_chatId_fixed (contact : string) :
  send_message_chatId contact = contact
  <-> exists digits, all_digits digits = true /\ contact = digits ++ "@c.us".
Proof.
  unfold send_message_chatId; split.
  - intros H. exists (Js.replace Js.non_digit "" contact). split.
    + apply replace_non_digit_all_digits.
    + now symmetry.
  - intros [digits [Hd ->]].
    rewrite replace_non_digit_append, (replace_non_digit_digits digits Hd).
    change (Js.replace Js.non_digit "" "@c.us") with "".
    now rewrite append_empty_r.
Qed.

(** A valid [/send_message] request on a ready session makes the one call
    [sendText(chatId, message)]. *)
Lemma send_message_valid (st : ServerState) (c : Client) (req : Body.t)
      (contact message : string) :
  clientReady st = true -> client st = Some c ->
  Body.contact req = Some contact -> Body.message req = Some message ->
  contact <> "" -> message <> "" ->
  calls (send_message st req) = [SendText (send_message_chatId contact) message]
  /\ settled (send_message st req)
     = match sendText c (send_message_chatId contact) message with
       | Resolved _ => Resolved (res_json (JObject [("status", JString "ok")]))
       | Rejected e => Resolved (error_response 500 (Error.message e))
       end.
Proof.
  intros Hready Hclient Hcontact Hmessage Hc Hm.
  unfold send_message. rewrite Hready, Hclient, Hcontact, Hmessage.
  apply String.eqb_neq in Hc, Hm. rewrite Hc, Hm. cbn [orb].
  unfold try_catch, bind, await, ret; cbn.
  destruct (sendText c (send_message_chatId contact) message); split; reflexivity.
Qed.

(** * Poll delivery *)

(** The three branches of [deliverPoll]. *)
Lemma deliverPoll_group (c : Client) (chatId question : string)
      (options : list string) :
  Js.endsWith chatId "@g.us" = true ->
  deliverPoll c chatId question options
  = (await (SendPoll chatId question options)
           (sendPoll c chatId question options) ;;
     ret (ok_method "poll")).
Proof. unfold deliverPoll. now intros ->. Qed.

Lemma deliverPoll_buttons (c : Client) (chatId question : string)
      (options : list string) :
  Js.endsWith chatId "@g.us" = false ->
  List.length options <= 3 ->
  let buttons :=
    Js.map (fun opt i => {| Button.id := "opt" ++ Js.number_to_string (i + 1);
                            Button.text := opt |}) options in
  deliverPoll c chatId question options
  = (await (SendButtons chatId question buttons
                        "Poll" "Reply by tapping a button")
           (sendButtons c chatId question buttons
                        "Poll" "Reply by tapping a button") ;;
     ret (ok_method "buttons")).
Proof.
  intros Hgroup Hlen. unfold deliverPoll. rewrite Hgroup.
  apply Nat.leb_le in Hlen. now rewrite Hlen.
Qed.

Lemma deliverPoll_list (c : Client) (chatId question : string)
      (options : list string) :
  Js.endsWith chatId "@g.us" = false ->
  3 < List.length options ->
  let rows :=
    Js.map (fun opt i => {| Row.rowId := "opt" ++ Js.number_to_string (i + 1);
                            Row.title := opt |}) options in
  let sections := [{| ListSection.title := "Options";
                      ListSection.rows := rows |}] in
  deliverPoll c chatId question options
  = (await (SendListMessage chatId sections
                            "Poll" question "Choose an option")
           (sendListMessage c chatId sections
                            "Poll" question "Choose an option") ;;
     ret (ok_method "list")).
Proof.
  intros Hgroup Hlen. unfold deliverPoll. rewrite Hgroup.
  apply Nat.leb_gt in Hlen. now rewrite Hlen.
Qed.

(** Whatever the branch, [deliverPoll] makes one call, addressed to
    [chatId]; it resolves with the tag of the table when the call resolves
    and throws the call's error otherwise. *)
Lemma deliverPoll_one_call (c : Client) (chatId question : string)
      (options : list string) :
  exists call,
    calls (deliverPoll c chatId question options) = [call]
    /\ call_chatId call = Some chatId
    /\ settled (deliverPoll c chatId question options)
       = match transport_result c call with
         | Resolved _ =>
             Resolved (ok_method (decision_table (Js.endsWith chatId "@g.us")
                                                 (List.length options)))
         | Rejected e => Rejected e
         end.
Proof.
  destruct (Js.endsWith chatId "@g.us") eqn:Hgroup.
  - rewrite (deliverPoll_group c chatId question options Hgroup).
    eexists. split; [apply await_then_respond | split; [reflexivity|]].
    apply await_then_respond.
  - destruct (Nat.leb_spec (List.length options) 3) as [Hlen|Hlen].
    + rewrite (deliverPoll_buttons c chatId question options Hgroup Hlen).
      eexists. split; [apply await_then_respond | split; [reflexivity|]].
      unfold decision_table. apply Nat.leb_le in Hlen. rewrite Hlen.
      apply await_then_respond.
    + rewrite (deliverPoll_list c chatId question options Hgroup Hlen).
      eexists. split; [apply await_then_respond | split; [reflexivity|]].
      unfold decision_table. apply Nat.leb_gt in Hlen. rewrite Hlen.
      apply await_then_respond.
Qed.

(** What [/send_poll] does with a body on a ready session: a body that
    fails the validation is answered HTTP 400 without a call; any other
    runs [deliverPoll] inside the [try] block. *)
Lemma send_poll_ready (st : ServerState) (c : Client) (req : Body.t) :
  clientReady st = true -> client st = Some c ->
  send_poll st req = ret (error_response 400 "Missing required fields")
  \/ exists contact question options,
       Body.contact req = Some contact
       /\ Body.question req = Some question
       /\ Body.options req = Some options
       /\ contact <> "" /\ question <> "" /\ options <> []
       /\ send_poll st req
          = try_catch
              (deliverPoll c (send_poll_chatId contact) question options)
              (fun error => ret (error_response 500 (Error.message error))).
Proof.
  intros Hready Hclient. unfold send_poll. rewrite Hready, Hclient.
  destruct (Body.contact req) as [contact|]; [|now left].
  destruct (Body.question req) as [question|]; [|now left].
  destruct (Body.options req) as [options|]; [|now left].
  destruct (String.eqb_spec contact "") as [Hc|Hc]; [now left|].
  destruct (String.eqb_spec question "") as [Hq|Hq]; [now left|].
  destruct options as [|opt options]; [now left|].
  right. exists contact, question, (opt :: options).
  repeat split; try assumption; discriminate.
Qed.

Lemma send_poll_valid (st : ServerState) (c : Client) (req : Body.t)
      (contact question : string) (options : list string) :
  clientReady st = true -> client st = Some c ->
  Body.contact req = Some contact ->
  Body.question req = Some question ->
  Body.options req = Some options ->
  contact <> "" -> question <> "" -> options <> [] ->
  send_poll st req
  = try_catch (deliverPoll c (send_poll_chatId contact) question options)
              (fun error => ret (error_response 500 (Error.message error))).
Proof.
  intros Hready Hclient Hcontact Hquestion Hoptions Hc Hq Ho.
  unfold send_poll. rewrite Hready, Hclient, Hcontact, Hquestion, Hoptions.
  apply String.eqb_neq in Hc, Hq. rewrite Hc, Hq.
  destruct options as [|opt options]; [now contradiction Ho | reflexivity].
Qed.

(** The [try] block of [/send_poll] around [deliverPoll]: one call,
    addressed to [chatId]; the tag of the table when it resolves, HTTP 500
    with the error's message when it rejects. *)
Lemma try_deliverPoll_run (c : Client) (chatId question : string)
      (options : list string) :
  let run :=
    try_catch (deliverPoll c chatId question options)
              (fun error => ret (error_response 500 (Error.message error))) in
  exists call,
    calls run = [call]
    /\ call_chatId call = Some chatId
    /\ settled run
       = match transport_result c call with
         | Resolved _ =>
             Resolved (ok_method (decision_table (Js.endsWith chatId "@g.us")
                                                 (List.length options)))
         | Rejected e => Resolved (error_response 500 (Error.message e))
         end.
Proof.
  intros run.
  destruct (deliverPoll_one_call c chatId question options)
    as [call [Hcalls [Hid Hsettled]]].
  destruct (try_catch_respond (deliverPoll c chatId question options)
              (fun e => error_response 500 (Error.message e)))
    as [Hcalls' Hsettled'].
  exists call. unfold run. rewrite Hcalls', Hsettled', Hcalls, Hsettled.
  split; [reflexivity | split; [exact Hid|]].
  now destruct (transport_result c call).
Qed.

(** A valid [/send_poll] request on a ready session makes one call,
    addressed to the computed chat identifier. *)
Lemma send_poll_addressed (st : ServerState) (c : Client) (req : Body.t)
      (contact question : string) (options : list string) :
  clientReady st = true -> client st = Some c ->
  Body.contact req = Some contact ->
  Body.question req = Some question ->
  Body.options req = Some options ->
  contact <> "" -> question <> "" -> options <> [] ->
  List.map call_chatId (calls (send_poll st req))
  = [Some (send_poll_chatId contact)].
Proof.
  intros Hready Hclient Hcontact Hquestion Hoptions Hc Hq Ho.
  rewrite (send_poll_valid st c req contact question options
             Hready Hclient Hcontact Hquestion Hoptions Hc Hq Ho).
  destruct (try_deliverPoll_run c (send_poll_chatId contact) question options)
    as [call [Hcalls [Hid _]]].
  rewrite Hcalls. simpl. now rewrite Hid.
Qed.

(** * Properties of the dispatch engine *)

(** C1.  The pass-through of a contact that contains ['@'] fails in
    [/send_message], which never tests for ['@']: a group identifier,
    which [/send_poll] passes through unchanged, is rewritten to its digits
    followed by ["@c.us"] before [sendText] is called. *)
Theorem send_message_rewrites_group_identifier (c : Client) :
  let contact := "31612345678-1500000000@g.us" in
  Js.includes contact "@" = true
  /\ send_poll_chatId contact = contact
  /\ send_message_chatId contact = "316123456781500000000@c.us"
  /\ calls (send_message (ready_with c) (message_request contact "Hello"))
     = [SendText "316123456781500000000@c.us" "Hello"].
Proof.
  intros contact. repeat split.
  apply (send_message_valid (ready_with c) c (message_request contact "Hello")
                            contact "Hello"); try reflexivity; discriminate.
Qed.

(** C2.  [deliverPoll] is a decision table over the chat kind and the
    number of options.  For a chat identifier ending in ["@g.us"] the one
    call is [sendPoll(chatId, question, options)] and the outcome is
    ["poll"], whatever the number of options; for any other identifier, up
    to three options give one [sendButtons] call and the outcome
    ["buttons"], more than three give one [sendListMessage] call and the
    outcome ["list"].  The outcome is what the handler answers when the
    call resolves; a rejected call throws its error instead. *)
Theorem deliverPoll_decision_table
        (c : Client) (chatId question : string) (options : list string) :
  (Js.endsWith chatId "@g.us" = true ->
   calls (deliverPoll c chatId question options)
   = [SendPoll chatId question options]
   /\ settled (deliverPoll c chatId question options)
      = match sendPoll c chatId question options with
        | Resolved _ => Resolved (ok_method "poll")
        | Rejected e => Rejected e
        end)
  /\ (Js.endsWith chatId "@g.us" = false ->
      1 <= List.length options <= 3 ->
      exists buttons,
        calls (deliverPoll c chatId question options)
        = [SendButtons chatId question buttons
                       "Poll" "Reply by tapping a button"]
        /\ settled (deliverPoll c chatId question options)
           = match sendButtons c chatId question buttons
                               "Poll" "Reply by tapping a button" with
             | Resolved _ => Resolved (ok_method "buttons")
             | Rejected e => Rejected e
             end)
  /\ (Js.endsWith chatId "@g.us" = false ->
      3 < List.length options ->
      exists sections,
        calls (deliverPoll c chatId question options)
        = [SendListMessage chatId sections
                           "Poll" question "Choose an option"]
        /\ settled (deliverPoll c chatId question options)
           = match sendListMessage c chatId sections
                                   "Poll" question "Choose an option" with
             | Resolved _ => Resolved (ok_method "list")
             | Rejected e => Rejected e
             end)
  /\ (forall r, settled (deliverPoll c chatId question options) = Resolved r ->
                r = ok_method (decision_table (Js.endsWith chatId "@g.us")
                                              (List.length options))).
Proof.
  split; [|split; [|split]].
  - intros Hgroup.
    rewrite (deliverPoll_group c chatId question options Hgroup).
    apply await_then_respond.
  - intros Hgroup [_ Hlen].
    rewrite (deliverPoll_buttons c chatId question options Hgroup Hlen).
    eexists. apply await_then_respond.
  - intros Hgroup Hlen.
    rewrite (deliverPoll_list c chatId question options Hgroup Hlen).
    eexists. apply await_then_respond.
  - intros r Hr.
    destruct (deliverPoll_one_call c chatId question options)
      as [call [_ [_ Hsettled]]].
    rewrite Hsettled in Hr.
    destruct (transport_result c call); [|discriminate].
    now injection Hr as <-.
Qed.

Lemma deliverPoll_decision_table_witness :
  (settled (deliverPoll resolving_client "31612345678-1500000000@g.us"
                        "Pizza?" ["Yes"])
   = Resolved (ok_method "poll")
   /\ settled (deliverPoll resolving_client "31612345678-1500000000@g.us"
                           "Pizza?" (List.repeat "Yes" 50))
      = Resolved (ok_method "poll"))
  /\ (exists buttons,
         calls (deliverPoll resolving_client "31612345678@c.us"
                            "Pizza?" ["A"; "B"; "C"])
         = [SendButtons "31612345678@c.us" "Pizza?" buttons
                        "Poll" "Reply by tapping a button"]
         /\ settled (deliverPoll resolving_client "31612345678@c.us"
                                 "Pizza?" ["A"; "B"; "C"])
            = Resolved (ok_method "buttons"))
  /\ (exists sections,
         calls (deliverPoll resolving_client "31612345678@c.us"
                            "Pizza?" ["A"; "B"; "C"; "D"])
         = [SendListMessage "31612345678@c.us" sections
                            "Poll" "Pizza?" "Choose an option"]
         /\ settled (deliverPoll resolving_client "31612345678@c.us"
                                 "Pizza?" ["A"; "B"; "C"; "D"])
            = Resolved (ok_method "list")).
Proof.
  split; [split | split].
  - apply (proj1 (deliverPoll_decision_table
                    resolving_client "31612345678-1500000000@g.us"
                    "Pizza?" ["Yes"])).
    reflexivity.
  - apply (proj1 (deliverPoll_decision_table
                    resolving_client "31612345678-1500000000@g.us"
                    "Pizza?" (List.repeat "Yes" 50))).
    reflexivity.
  - apply (proj1 (proj2 (deliverPoll_decision_table
                           resolving_client "31612345678@c.us"
                           "Pizza?" ["A"; "B"; "C"]))).
    + reflexivity.
    + simpl; lia.
  - apply (proj1 (proj2 (proj2 (deliverPoll_decision_table
                                  resolving_client "31612345678@c.us"
                                  "Pizza?" ["A"; "B"; "C"; "D"])))).
    + reflexivity.
    + simpl; lia.
Defined.

(** C3.  While the session is not ready ([clientReady] is false), each of
    [send_message], [send_poll], [get_groups] and [open_whatsapp] answers
    HTTP 500 with the fixed message "WhatsApp client not ready" and makes
    no call on the client. *)
Theorem not_ready_is_500_without_transport (st : ServerState) (req : Body.t) :
  clientReady st = false ->
  (calls (send_message st req) = []
   /\ settled (send_message st req) = Resolved not_ready_response)
  /\ (calls (send_poll st req) = []
      /\ settled (send_poll st req) = Resolved not_ready_response)
  /\ (calls (get_groups st) = []
      /\ settled (get_groups st) = Resolved not_ready_response)
  /\ (calls (open_whatsapp st) = []
      /\ settled (open_whatsapp st) = Resolved not_ready_response).
Proof.
  intros Hready.
  assert (Hgate : gate_closed st) by (left; exact Hready).
  rewrite (gate_send_message st req Hgate), (gate_send_poll st req Hgate),
    (gate_get_groups st Hgate), (gate_open_whatsapp st Hready).
  repeat split.
Qed.

Lemma not_ready_is_500_without_transport_witness :
  clientReady initial_state = false
  /\ statusCode not_ready_response = 500
  /\ (calls (send_message initial_state (message_request "31612345678" "Hi")) = []
      /\ settled (send_message initial_state (message_request "31612345678" "Hi"))
         = Resolved not_ready_response)
  /\ (calls (send_poll initial_state (message_request "31612345678" "Hi")) = []
      /\ settled (send_poll initial_state (message_request "31612345678" "Hi"))
         = Resolved not_ready_response)
  /\ (calls (get_groups initial_state) = []
      /\ settled (get_groups initial_state) = Resolved not_ready_response)
  /\ (calls (open_whatsapp initial_state) = []
      /\ settled (open_whatsapp initial_state) = Resolved not_ready_response).
Proof.
  split; [reflexivity | split; [reflexivity|]].
  apply (not_ready_is_500_without_transport initial_state
           (message_request "31612345678" "Hi")).
  reflexivity.
Defined.

(** C4.  A contact without ['@'] is resolved, in [/send_poll] as in
    [/send_message], to its digits (every other unit deleted, order kept)
    followed by ["@c.us"], so the identifier ends with ["@c.us"];
    ["+31 6 87758933"] gives ["31687758933@c.us"]; a contact without any
    digit gives the bare ["@c.us"], which is not validated: the handlers
    make their client call with it. *)
Theorem digits_resolution (contact : string) :
  Js.includes contact "@" = false ->
  (exists digits,
      send_poll_chatId contact = digits ++ "@c.us"
      /\ send_message_chatId contact = digits ++ "@c.us"
      /\ all_digits digits = true
      /\ list_ascii_of_string digits
         = filter Js.digit (list_ascii_of_string contact))
  /\ Js.endsWith (send_poll_chatId contact) "@c.us" = true
  /\ Js.endsWith (send_message_chatId contact) "@c.us" = true
  /\ send_poll_chatId "+31 6 87758933" = "31687758933@c.us"
  /\ (no_digits contact = true ->
      send_poll_chatId contact = "@c.us"
      /\ send_message_chatId contact = "@c.us"
      /\ forall st c req message,
           clientReady st = true -> client st = Some c ->
           Body.contact req = Some contact ->
           Body.message req = Some message ->
           contact <> "" -> message <> "" ->
           calls (send_message st req) = [SendText "@c.us" message])
  /\ (no_digits contact = true ->
      forall st c req question options,
        clientReady st = true -> client st = Some c ->
        Body.contact req = Some contact ->
        Body.question req = Some question ->
        Body.options req = Some options ->
        contact <> "" -> question <> "" -> options <> [] ->
        List.map call_chatId (calls (send_poll st req)) = [Some "@c.us"]).
Proof.
  intros Hat.
  assert (Hbare : no_digits contact = true ->
                  send_message_chatId contact = "@c.us")
    by (intros Hnone; unfold send_message_chatId;
        now rewrite (replace_non_digit_no_digits contact Hnone)).
  assert (Hpoll : send_poll_chatId contact = send_message_chatId contact)
    by exact (send_poll_chatId_digits contact Hat).
  split; [|split; [|split; [|split; [|split]]]]; rewrite ?Hpoll.
  - exists (Js.replace Js.non_digit "" contact).
    split; [reflexivity | split; [reflexivity | split]].
    + apply replace_non_digit_all_digits.
    + apply replace_non_digit_filter.
  - apply endsWith_iff. now exists (Js.replace Js.non_digit "" contact).
  - apply endsWith_iff. now exists (Js.replace Js.non_digit "" contact).
  - reflexivity.
  - intros Hnone. pose proof (Hbare Hnone) as Hid.
    split; [exact Hid | split; [exact Hid|]].
    intros st c req message Hready Hclient Hcontact Hmessage Hc Hm.
    rewrite <- Hid.
    now apply (send_message_valid st c req contact message).
  - intros Hnone st c req question options Hready Hclient Hcontact
           Hquestion Hoptions Hc Hq Ho.
    rewrite <- (Hbare Hnone), <- Hpoll.
    now apply (send_poll_addressed st c req contact question options).
Qed.

Lemma digits_resolution_witness :
  (Js.endsWith (send_poll_chatId "+31 6 87758933") "@c.us" = true
   /\ send_poll_chatId "+31 6 87758933" = "31687758933@c.us")
  /\ (send_poll_chatId "John" = "@c.us"
      /\ calls (send_message (ready_with resolving_client)
                  (message_request "John" "Hello"))
         = [SendText "@c.us" "Hello"]
      /\ List.map call_chatId
           (calls (send_poll (ready_with resolving_client)
                             (poll_request "John" "Pizza?" ["Yes"; "No"])))
         = [Some "@c.us"]).
Proof.
  split.
  - destruct (digits_resolution "+31 6 87758933" eq_refl)
      as [_ [Hends [_ [Hexample _]]]].
    split; assumption.
  - destruct (digits_resolution "John" eq_refl)
      as [_ [_ [_ [_ [Hbare Hpolled]]]]].
    destruct (Hbare eq_refl) as [Hpoll [_ Hsend]].
    split; [exact Hpoll | split].
    + apply (Hsend (ready_with resolving_client) resolving_client
                   (message_request "John" "Hello") "Hello");
        try reflexivity; discriminate.
    + apply (Hpolled eq_refl (ready_with resolving_client) resolving_client
                     (poll_request "John" "Pizza?" ["Yes"; "No"])
                     "Pizza?" ["Yes"; "No"]);
        try reflexivity; discriminate.
Defined.

(** C5.  The button fallback: on a ready session, for a contact whose chat
    identifier is not a group's and one to three options, [/send_poll]
    makes the one call [sendButtons(chatId, question, buttons, "Poll",
    "Reply by tapping a button")] with one button per option, in order, the
    button of the option at 0-based index [i] being
    [{ id: "opt" + (i + 1), text: option }]; it answers
    [{ status: "ok", method: "buttons" }] when the call resolves.  End to
    end: contact ["31612345678"], question ["Pizza?"] and options
    [["Yes"; "No"]] give exactly the call and the response of the
    scenario. *)
Theorem button_fallback :
  (forall (st : ServerState) (c : Client) (req : Body.t)
          (contact question : string) (options : list string),
      clientReady st = true -> client st = Some c ->
      Body.contact req = Some contact ->
      Body.question req = Some question ->
      Body.options req = Some options ->
      contact <> "" -> question <> "" ->
      Js.endsWith (send_poll_chatId contact) "@g.us" = false ->
      1 <= List.length options <= 3 ->
      exists buttons,
        calls (send_poll st req)
        = [SendButtons (send_poll_chatId contact) question buttons
                       "Poll" "Reply by tapping a button"]
        /\ List.length buttons = List.length options
        /\ (forall i opt,
               nth_error options i = Some opt ->
               nth_error buttons i
               = Some {| Button.id := "opt" ++ Js.number_to_string (i + 1);
                         Button.text := opt |})
        /\ settled (send_poll st req)
           = match sendButtons c (send_poll_chatId contact) question buttons
                               "Poll" "Reply by tapping a button" with
             | Resolved _ => Resolved (ok_method "buttons")
             | Rejected e => Resolved (error_response 500 (Error.message e))
             end)
  /\ (forall (st : ServerState) (c : Client),
         clientReady st = true -> client st = Some c ->
         let req := poll_request "31612345678" "Pizza?" ["Yes"; "No"] in
         let buttons := [{| Button.id := "opt1"; Button.text := "Yes" |};
                         {| Button.id := "opt2"; Button.text := "No" |}] in
         calls (send_poll st req)
         = [SendButtons "31612345678@c.us" "Pizza?" buttons
                        "Poll" "Reply by tapping a button"]
         /\ (sendButtons c "31612345678@c.us" "Pizza?" buttons
                         "Poll" "Reply by tapping a button" = Resolved tt ->
             settled (send_poll st req)
             = Resolved (res_json (JObject [("status", JString "ok");
                                            ("method", JString "buttons")])))).
Proof.
  assert (Hgeneral :
    forall st c req contact question options,
      clientReady st = true -> client st = Some c ->
      Body.contact req = Some contact ->
      Body.question req = Some question ->
      Body.options req = Some options ->
      contact <> "" -> question <> "" ->
      Js.endsWith (send_poll_chatId contact) "@g.us" = false ->
      1 <= List.length options <= 3 ->
      let buttons :=
        Js.map (fun opt i =>
                  {| Button.id := "opt" ++ Js.number_to_string (i + 1);
                     Button.text := opt |}) options in
      calls (send_poll st req)
      = [SendButtons (send_poll_chatId contact) question buttons
                     "Poll" "Reply by tapping a button"]
      /\ settled (send_poll st req)
         = match sendButtons c (send_poll_chatId contact) question buttons
                             "Poll" "Reply by tapping a button" with
           | Resolved _ => Resolved (ok_method "buttons")
           | Rejected e => Resolved (error_response 500 (Error.message e))
           end).
  { intros st c req contact question options Hready Hclient Hcontact
           Hquestion Hoptions Hc Hq Hgroup [Hmin Hmax] buttons.
    assert (Ho : options <> []) by (destruct options; simpl in Hmin; [lia | discriminate]).
    rewrite (send_poll_valid st c req contact question options
               Hready Hclient Hcontact Hquestion Hoptions Hc Hq Ho).
    rewrite (deliverPoll_buttons c (send_poll_chatId contact) question options
               Hgroup Hmax).
    fold buttons. apply try_await_respond. }
  split.
  - intros st c req contact question options Hready Hclient Hcontact
           Hquestion Hoptions Hc Hq Hgroup Hlen.
    destruct (Hgeneral st c req contact question options Hready Hclient
                Hcontact Hquestion Hoptions Hc Hq Hgroup Hlen)
      as [Hcalls Hsettled].
    eexists. split; [exact Hcalls | split; [|split; [|exact Hsettled]]].
    + apply map_from_length.
    + intros i opt Hi. unfold Js.map.
      now rewrite (map_from_nth _ options 0 i opt Hi).
  - intros st c Hready Hclient req buttons.
    destruct (Hgeneral st c req "31612345678" "Pizza?" ["Yes"; "No"]
                Hready Hclient eq_refl eq_refl eq_refl)
      as [Hcalls Hsettled]; try discriminate; try reflexivity.
    { simpl; lia. }
    split; [exact Hcalls|].
    intros Hok. rewrite Hsettled.
    change (send_poll_chatId "31612345678") with "31612345678@c.us".
    cbn [Js.map Js.map_from].
    change ("opt" ++ Js.number_to_string (0 + 1)) with "opt1".
    change ("opt" ++ Js.number_to_string (1 + 1)) with "opt2".
    fold buttons. now rewrite Hok.
Qed.

Lemma button_fallback_witness :
  calls (send_poll (ready_with resolving_client)
                   (poll_request "31612345678" "Pizza?" ["Yes"; "No"]))
  = [SendButtons "31612345678@c.us" "Pizza?"
                 [{| Button.id := "opt1"; Button.text := "Yes" |};
                  {| Button.id := "opt2"; Button.text := "No" |}]
                 "Poll" "Reply by tapping a button"]
  /\ settled (send_poll (ready_with resolving_client)
                        (poll_request "31612345678" "Pizza?" ["Yes"; "No"]))
     = Resolved (res_json (JObject [("status", JString "ok");
                                    ("method", JString "buttons")]))
  /\ exists buttons,
       calls (send_poll (ready_with resolving_client)
                        (poll_request "31612345678" "Pizza?" ["A"; "B"; "C"]))
       = [SendButtons "31612345678@c.us" "Pizza?" buttons
                      "Poll" "Reply by tapping a button"]
       /\ nth_error buttons 2
          = Some {| Button.id := "opt3"; Button.text := "C" |}.
Proof.
  destruct (proj2 button_fallback (ready_with resolving_client)
                  resolving_client eq_refl eq_refl) as [Hcalls Hsettled].
  split; [exact Hcalls | split; [exact (Hsettled eq_refl)|]].
  destruct (proj1 button_fallback (ready_with resolving_client)
                  resolving_client
                  (poll_request "31612345678" "Pizza?" ["A"; "B"; "C"])
                  "31612345678" "Pizza?" ["A"; "B"; "C"]
                  eq_refl eq_refl eq_refl eq_refl eq_refl)
    as [buttons [Hc [_ [Hnth _]]]];
    try discriminate; try reflexivity.
  { simpl; lia. }
  exists buttons. split; [exact Hc|].
  exact (Hnth 2 "C" eq_refl).
Defined.

(** C6, as stated, fails: the description passed to [sendListMessage] is
    not a fixed string, it is the question of the poll.  No description
    fits both the question ["Pizza?"] and the question ["Pasta?"]. *)
Lemma list_description_is_not_fixed :
  ~ exists description,
      forall question,
        question = "Pizza?" \/ question = "Pasta?" ->
        List.map list_description
          (calls (send_poll (ready_with resolving_client)
                            (poll_request "31612345678" question
                                          ["A"; "B"; "C"; "D"])))
        = [Some description].
Proof.
  intros [description H].
  pose proof (H "Pizza?" (or_introl eq_refl)) as Hpizza.
  pose proof (H "Pasta?" (or_intror eq_refl)) as Hpasta.
  cbv in Hpizza, Hpasta. congruence.
Qed.

(** C6, amended.  The list fallback: on a ready session, for a contact
    whose chat identifier is not a group's and more than three options,
    [/send_poll] makes the one call [sendListMessage(chatId, sections,
    "Poll", question, "Choose an option")]: the title and the action text
    are fixed, the description is the question of the poll.  [sections] is
    a single section titled ["Options"] with one row per option, in order,
    the row of the option at 0-based index [i] being
    [{ rowId: "opt" + (i + 1), title: option }]; the answer is
    [{ status: "ok", method: "list" }] when the call resolves. *)
Theorem list_fallback
        (st : ServerState) (c : Client) (req : Body.t)
        (contact question : string) (options : list string) :
  clientReady st = true -> client st = Some c ->
  Body.contact req = Some contact ->
  Body.question req = Some question ->
  Body.options req = Some options ->
  contact <> "" -> question <> "" ->
  Js.endsWith (send_poll_chatId contact) "@g.us" = false ->
  3 < List.length options ->
  exists rows,
    let sections := [{| ListSection.title := "Options";
                        ListSection.rows := rows |}] in
    calls (send_poll st req)
    = [SendListMessage (send_poll_chatId contact) sections
                       "Poll" question "Choose an option"]
    /\ List.length rows = List.length options
    /\ (forall i opt,
           nth_error options i = Some opt ->
           nth_error rows i
           = Some {| Row.rowId := "opt" ++ Js.number_to_string (i + 1);
                     Row.title := opt |})
    /\ settled (send_poll st req)
       = match sendListMessage c (send_poll_chatId contact) sections
                               "Poll" question "Choose an option" with
         | Resolved _ => Resolved (ok_method "list")
         | Rejected e => Resolved (error_response 500 (Error.message e))
         end.
Proof.
  intros Hready Hclient Hcontact Hquestion Hoptions Hc Hq Hgroup Hlen.
  assert (Ho : options <> [])
    by (destruct options; simpl in Hlen; [lia | discriminate]).
  rewrite (send_poll_valid st c req contact question options
             Hready Hclient Hcontact Hquestion Hoptions Hc Hq Ho).
  rewrite (deliverPoll_list c (send_poll_chatId contact) question options
             Hgroup Hlen).
  eexists. cbv zeta.
  split; [apply try_await_respond | split; [|split; [|apply try_await_respond]]].
  - apply map_from_length.
  - intros i opt Hi. unfold Js.map.
    now rewrite (map_from_nth _ options 0 i opt Hi).
Qed.

Lemma list_fallback_witness :
  exists rows,
    calls (send_poll (ready_with resolving_client)
                     (poll_request "31612345678" "Pizza?"
                                   ["A"; "B"; "C"; "D"]))
    = [SendListMessage "31612345678@c.us"
                       [{| ListSection.title := "Options";
                           ListSection.rows := rows |}]
                       "Poll" "Pizza?" "Choose an option"]
    /\ nth_error rows 3 = Some {| Row.rowId := "opt4"; Row.title := "D" |}
    /\ settled (send_poll (ready_with resolving_client)
                          (poll_request "31612345678" "Pizza?"
                                        ["A"; "B"; "C"; "D"]))
       = Resolved (ok_method "list").
Proof.
  destruct (list_fallback (ready_with resolving_client) resolving_client
              (poll_request "31612345678" "Pizza?" ["A"; "B"; "C"; "D"])
              "31612345678" "Pizza?" ["A"; "B"; "C"; "D"]
              eq_refl eq_refl eq_refl eq_refl eq_refl)
    as [rows [Hcalls [_ [Hnth Hsettled]]]];
    try discriminate; try reflexivity.
  { simpl; lia. }
  exists rows. split; [exact Hcalls | split; [|exact Hsettled]].
  exact (Hnth 3 "D" eq_refl).
Defined.

(** C7.  On a ready session [/send_poll] makes at most one call on the
    client (exactly one for a valid body); when that call rejects, nothing
    else is called and the answer is HTTP 500 carrying the error's message
    unchanged. *)
Theorem send_poll_single_attempt
        (st : ServerState) (c : Client) (req : Body.t) :
  clientReady st = true -> client st = Some c ->
  List.length (calls (send_poll st req)) <= 1
  /\ (forall contact question options,
         Body.contact req = Some contact ->
         Body.question req = Some question ->
         Body.options req = Some options ->
         contact <> "" -> question <> "" -> options <> [] ->
         exists call,
           calls (send_poll st req) = [call]
           /\ call_chatId call = Some (send_poll_chatId contact))
  /\ (forall call e,
         In call (calls (send_poll st req)) ->
         transport_result c call = Rejected e ->
         calls (send_poll st req) = [call]
         /\ settled (send_poll st req)
            = Resolved (error_response 500 (Error.message e))).
Proof.
  intros Hready Hclient.
  assert (Hrun :
    forall contact question options,
      send_poll st req
      = try_catch (deliverPoll c (send_poll_chatId contact) question options)
          (fun error => ret (error_response 500 (Error.message error))) ->
      exists call,
        calls (send_poll st req) = [call]
        /\ call_chatId call = Some (send_poll_chatId contact)
        /\ settled (send_poll st req)
           = match transport_result c call with
             | Resolved _ =>
                 Resolved (ok_method
                             (decision_table
                                (Js.endsWith (send_poll_chatId contact) "@g.us")
                                (List.length options)))
             | Rejected e => Resolved (error_response 500 (Error.message e))
             end)
    by (intros contact question options ->; apply try_deliverPoll_run).
  split; [|split].
  - destruct (send_poll_ready st c req Hready Hclient)
      as [-> | [contact [question [options [_ [_ [_ [_ [_ [_ H]]]]]]]]]].
    + simpl; lia.
    + destruct (Hrun contact question options H) as [call [-> _]].
      simpl; lia.
  - intros contact question options Hcontact Hquestion Hoptions Hc Hq Ho.
    destruct (Hrun contact question options
                (send_poll_valid st c req contact question options
                   Hready Hclient Hcontact Hquestion Hoptions Hc Hq Ho))
      as [call [Hcalls [Hid _]]].
    now exists call.
  - intros call e Hin Hrejected.
    destruct (send_poll_ready st c req Hready Hclient)
      as [H400 | [contact [question [options [_ [_ [_ [_ [_ [_ H]]]]]]]]]].
    + rewrite H400 in Hin. destruct Hin.
    + destruct (Hrun contact question options H)
        as [call' [Hcalls [_ Hsettled]]].
      rewrite Hcalls in Hin. destruct Hin as [<-|[]].
      rewrite Hcalls, Hsettled, Hrejected. split; reflexivity.
Qed.

Lemma send_poll_single_attempt_witness :
  calls (send_poll (ready_with (rejecting_client "Session closed"))
                   (poll_request "31612345678-1500000000@g.us" "Pizza?"
                                 ["Yes"; "No"]))
  = [SendPoll "31612345678-1500000000@g.us" "Pizza?" ["Yes"; "No"]]
  /\ settled (send_poll (ready_with (rejecting_client "Session closed"))
                        (poll_request "31612345678-1500000000@g.us" "Pizza?"
                                      ["Yes"; "No"]))
     = Resolved (error_response 500 "Session closed").
Proof.
  apply (proj2 (proj2 (send_poll_single_attempt
                         (ready_with (rejecting_client "Session closed"))
                         (rejecting_client "Session closed")
                         (poll_request "31612345678-1500000000@g.us" "Pizza?"
                                       ["Yes"; "No"])
                         eq_refl eq_refl))
           (SendPoll "31612345678-1500000000@g.us" "Pizza?" ["Yes"; "No"])
           {| Error.message := "Session closed" |}).
  - left; reflexivity.
  - reflexivity.
Defined.

(** C8, as stated, fails before the session is ready: a [send_poll] or
    [send_message] request with every member missing is answered HTTP 500
    (not ready), not HTTP 400. *)
Lemma missing_fields_before_ready_is_500 :
  Body.contact empty_body = None
  /\ settled (send_poll initial_state empty_body) = Resolved not_ready_response
  /\ settled (send_message initial_state empty_body)
     = Resolved not_ready_response
  /\ statusCode not_ready_response <> 400.
Proof. repeat split; discriminate. Qed.

(** C8, amended.  On a ready session, a [send_poll] request in which
    [contact], [question] or [options] is missing, or [options] is the
    empty list, is answered HTTP 400 "Missing required fields", and a
    [send_message] request in which [contact] or [message] is missing is
    answered HTTP 400 "Missing contact or message"; neither makes a call on
    the client (the handlers never assign [client] or [clientReady]). *)
Theorem missing_fields_are_400_when_ready
        (st : ServerState) (c : Client) (req : Body.t) :
  clientReady st = true ->
  client st = Some c ->
  ((Body.contact req = None \/ Body.question req = None
    \/ Body.options req = None \/ Body.options req = Some []) ->
   calls (send_poll st req) = []
   /\ settled (send_poll st req)
      = Resolved (error_response 400 "Missing required fields"))
  /\ ((Body.contact req = None \/ Body.message req = None) ->
      calls (send_message st req) = []
      /\ settled (send_message st req)
         = Resolved (error_response 400 "Missing contact or message")).
Proof.
  intros Hready Hclient. split.
  - intros Hmissing. unfold send_poll. rewrite Hready, Hclient.
    destruct (Body.contact req) as [contact|],
             (Body.question req) as [question|],
             (Body.options req) as [options|];
      try (split; reflexivity).
    destruct Hmissing as [H|[H|[H|H]]]; try discriminate.
    injection H as ->. cbn [List.length Nat.eqb].
    rewrite !orb_true_r. split; reflexivity.
  - intros Hmissing. unfold send_message. rewrite Hready, Hclient.
    destruct (Body.contact req) as [contact|],
             (Body.message req) as [message|];
      try (split; reflexivity).
    destruct Hmissing as [H|H]; discriminate.
Qed.

Lemma missing_fields_are_400_when_ready_witness :
  (calls (send_poll (ready_with resolving_client)
                    (poll_request "31612345678" "Pizza?" [])) = []
   /\ settled (send_poll (ready_with resolving_client)
                         (poll_request "31612345678" "Pizza?" []))
      = Resolved (error_response 400 "Missing required fields"))
  /\ (calls (send_message (ready_with resolving_client)
                          (poll_request "31612345678" "Pizza?" [])) = []
      /\ settled (send_message (ready_with resolving_client)
                               (poll_request "31612345678" "Pizza?" []))
         = Resolved (error_response 400 "Missing contact or message")).
Proof.
  destruct (missing_fields_are_400_when_ready
              (ready_with resolving_client) resolving_client
              (poll_request "31612345678" "Pizza?" [])
              eq_refl eq_refl) as [Hpoll Hmessage].
  split.
  - apply Hpoll. right; right; right. reflexivity.
  - apply Hmessage. right. reflexivity.
Defined.

(** C9, as stated, fails at a 1:1 identifier that is already canonical:
    [/send_message] maps ["31612345678@c.us"] to itself, which is also the
    identifier [/send_poll] computes for it. *)
Lemma send_message_keeps_direct_identifier :
  let contact := "31612345678@c.us" in
  Js.includes contact "@" = true
  /\ send_message_chatId contact = contact
  /\ send_message_chatId contact = send_poll_chatId contact.
Proof. intros contact. repeat split. Qed.

(** C9, amended.  For every contact, [/send_message] computes the chat
    identifier [<digits>@c.us], the digits being those of the contact in
    order, and sends to it; it never tests for ['@'].  For a contact that
    contains ['@'], [/send_message] and [/send_poll] compute the same
    identifier exactly when the contact already is [<digits>@c.us]; in
    particular a contact ending in ["@g.us"] is passed through by
    [/send_poll] and changed by [/send_message]. *)
Theorem send_message_always_strips (contact : string) :
  (exists digits,
      send_message_chatId contact = digits ++ "@c.us"
      /\ all_digits digits = true
      /\ list_ascii_of_string digits
         = filter Js.digit (list_ascii_of_string contact))
  /\ (forall st c req message,
         clientReady st = true -> client st = Some c ->
         Body.contact req = Some contact -> Body.message req = Some message ->
         contact <> "" -> message <> "" ->
         calls (send_message st req)
         = [SendText (send_message_chatId contact) message])
  /\ (Js.includes contact "@" = true ->
      (send_message_chatId contact = send_poll_chatId contact
       <-> exists digits, all_digits digits = true
                          /\ contact = digits ++ "@c.us"))
  /\ (Js.endsWith contact "@g.us" = true ->
      send_poll_chatId contact = contact
      /\ send_message_chatId contact <> contact
      /\ send_message_chatId contact <> send_poll_chatId contact).
Proof.
  split; [|split; [|split]].
  - exists (Js.replace Js.non_digit "" contact). split; [reflexivity|]. split.
    + apply replace_non_digit_all_digits.
    + apply replace_non_digit_filter.
  - intros st c req message Hready Hclient Hcontact Hmessage Hc Hm.
    now apply (send_message_valid st c req contact message).
  - intros Hat. rewrite (send_poll_chatId_passthrough contact Hat).
    apply send_message_chatId_fixed.
  - intros Hgroup.
    assert (Hpoll : send_poll_chatId contact = contact)
      by (apply send_poll_chatId_passthrough, group_suffix_includes_at, Hgroup).
    assert (Hne : send_message_chatId contact <> contact).
    { intros Heq. apply send_message_chatId_fixed in Heq as [digits [_ Hd]].
      assert (Hdirect : Js.endsWith contact "@c.us" = true)
        by (apply endsWith_iff; now exists digits).
      assert (Hsame : "@g.us" = "@c.us")
        by (apply (endsWith_same_length contact); [reflexivity | assumption..]).
      discriminate Hsame. }
    rewrite Hpoll. repeat split; assumption.
Qed.

Lemma send_message_always_strips_witness :
  (send_poll_chatId "31612345678-1500000000@g.us" = "31612345678-1500000000@g.us"
   /\ send_message_chatId "31612345678-1500000000@g.us"
      <> "31612345678-1500000000@g.us"
   /\ send_message_chatId "31612345678-1500000000@g.us"
      <> send_poll_chatId "31612345678-1500000000@g.us")
  /\ calls (send_message (ready_with resolving_client)
              (message_request "31612345678-1500000000@g.us" "Hello"))
     = [SendText (send_message_chatId "31612345678-1500000000@g.us") "Hello"].
Proof.
  destruct (send_message_always_strips "31612345678-1500000000@g.us")
    as [_ [Hsend [_ Hgroup]]].
  split.
  - apply Hgroup. reflexivity.
  - apply (Hsend (ready_with resolving_client) resolving_client
                 (message_request "31612345678-1500000000@g.us" "Hello")
                 "Hello"); try reflexivity; discriminate.
Defined.

(** C10.  The readiness check comes before the validation of the body:
    while the guard [!clientReady || !client] holds, [send_message] and
    [send_poll] answer the HTTP 500 not-ready error whatever the body is
    (required members missing or not), and an HTTP 400 answer of either
    handler implies a ready session. *)
Theorem readiness_checked_before_validation (st : ServerState) (req : Body.t) :
  ((clientReady st = false \/ client st = None) ->
   (calls (send_message st req) = []
    /\ settled (send_message st req) = Resolved not_ready_response)
   /\ (calls (send_poll st req) = []
       /\ settled (send_poll st req) = Resolved not_ready_response))
  /\ (forall r, settled (send_message st req) = Resolved r ->
                statusCode r = 400 ->
                clientReady st = true /\ client st <> None)
  /\ (forall r, settled (send_poll st req) = Resolved r ->
                statusCode r = 400 ->
                clientReady st = true /\ client st <> None).
Proof.
  split; [|split].
  - intros Hgate.
    rewrite (gate_send_message st req Hgate), (gate_send_poll st req Hgate).
    repeat split.
  - intros r Hr Hcode. apply gate_open_inv. intros Hgate.
    rewrite (gate_send_message st req Hgate) in Hr.
    injection Hr as <-. discriminate Hcode.
  - intros r Hr Hcode. apply gate_open_inv. intros Hgate.
    rewrite (gate_send_poll st req Hgate) in Hr.
    injection Hr as <-. discriminate Hcode.
Qed.

Lemma readiness_checked_before_validation_witness :
  (settled (send_message initial_state empty_body) = Resolved not_ready_response
   /\ settled (send_poll initial_state empty_body) = Resolved not_ready_response)
  /\ (settled (send_poll (ready_with resolving_client) empty_body)
      = Resolved (error_response 400 "Missing required fields")
      /\ clientReady (ready_with resolving_client) = true
      /\ client (ready_with resolving_client) <> None).
Proof.
  split.
  - destruct (proj1 (readiness_checked_before_validation
                       initial_state empty_body)) as [[_ H1] [_ H2]].
    + left; reflexivity.
    + split; assumption.
  - split; [reflexivity|].
    apply (proj2 (proj2 (readiness_checked_before_validation
                           (ready_with resolving_client) empty_body))
             (error_response 400 "Missing required fields"));
      reflexivity.
Defined.

(** * Further properties *)

(** X1.  The half of C1 that holds: in [/send_poll] a contact that
    contains ['@'] is the chat identifier, unchanged, and the one call of
    a valid request on a ready session is addressed to it. *)
Theorem send_poll_passes_identifier_through
        (st : ServerState) (c : Client) (req : Body.t)
        (contact question : string) (options : list string) :
  clientReady st = true -> client st = Some c ->
  Body.contact req = Some contact ->
  Body.question req = Some question ->
  Body.options req = Some options ->
  question <> "" -> options <> [] ->
  Js.includes contact "@" = true ->
  send_poll_chatId contact = contact
  /\ List.map call_chatId (calls (send_poll st req)) = [Some contact].
Proof.
  intros Hready Hclient Hcontact Hquestion Hoptions Hq Ho Hat.
  assert (Hc : contact <> "") by (intros ->; discriminate Hat).
  pose proof (send_poll_chatId_passthrough contact Hat) as Hid.
  split; [exact Hid|].
  rewrite (send_poll_addressed st c req contact question options
             Hready Hclient Hcontact Hquestion Hoptions Hc Hq Ho).
  now rewrite Hid.
Qed.

Lemma send_poll_passes_identifier_through_witness :
  send_poll_chatId "31612345678-1500000000@g.us"
  = "31612345678-1500000000@g.us"
  /\ List.map call_chatId
       (calls (send_poll (ready_with resolving_client)
                         (poll_request "31612345678-1500000000@g.us"
                                       "Pizza?" ["Yes"; "No"])))
     = [Some "31612345678-1500000000@g.us"].
Proof.
  apply (send_poll_passes_identifier_through
           (ready_with resolving_client) resolving_client
           (poll_request "31612345678-1500000000@g.us" "Pizza?" ["Yes"; "No"])
           "31612345678-1500000000@g.us" "Pizza?" ["Yes"; "No"]);
    try reflexivity; discriminate.
Defined.

(** ** More facts about the chat identifier *)

(** Appending a suffix is injective. *)
Lemma append_inj_r (s : string) :
  forall a b : string, a ++ s = b ++ s -> a = b.
Proof.
  assert (Hlonger : forall (c : ascii) (b : string), s <> String c (b ++ s)).
  { intros c b H. apply (f_equal String.length) in H.
    simpl in H. rewrite length_append in H. lia. }
  induction a as [|x a IH]; intros [|y b] H; simpl in H.
  - reflexivity.
  - exfalso. exact (Hlonger y b H).
  - exfalso. symmetry in H. exact (Hlonger x a H).
  - injection H as -> H. f_equal. exact (IH b H).
Qed.

(** An identifier with the 1:1 suffix does not have the group suffix. *)
Lemma direct_suffix_not_group (s : string) :
  Js.endsWith s "@c.us" = true -> Js.endsWith s "@g.us" = false.
Proof.
  intros Hdirect. destruct (Js.endsWith s "@g.us") eqn:Hgroup; [|reflexivity].
  assert (H : "@g.us" = "@c.us")
    by (apply (endsWith_same_length s); [reflexivity | assumption..]).
  discriminate H.
Qed.

Lemma send_message_chatId_direct (contact : string) :
  Js.endsWith (send_message_chatId contact) "@c.us" = true.
Proof.
  apply endsWith_iff. now exists (Js.replace Js.non_digit "" contact).
Qed.

Lemma send_message_chatId_includes_at (contact : string) :
  Js.includes (send_message_chatId contact) "@" = true.
Proof.
  apply includes_unit_iff. unfold send_message_chatId.
  rewrite list_ascii_of_append. apply in_or_app. right. simpl. auto.
Qed.

(** The group suffix of the identifier of [/send_poll] is the contact's. *)
Lemma send_poll_chatId_group (contact : string) :
  Js.endsWith (send_poll_chatId contact) "@g.us"
  = Js.endsWith contact "@g.us".
Proof.
  destruct (Js.includes contact "@") eqn:Hat.
  - now rewrite (send_poll_chatId_passthrough contact Hat).
  - rewrite (send_poll_chatId_digits contact Hat).
    rewrite (direct_suffix_not_group _ (send_message_chatId_direct contact)).
    destruct (Js.endsWith contact "@g.us") eqn:Hgroup; [|reflexivity].
    apply group_suffix_includes_at in Hgroup. congruence.
Qed.

(** ** The cases of the send handlers *)

(** [/send_message], whatever the state and the body: refused at the
    gate, refused by the validation, or one [sendText] call. *)
Lemma send_message_cases (st : ServerState) (req : Body.t) :
  (gate_closed st /\ send_message st req = ret not_ready_response)
  \/ (~ gate_closed st
      /\ falsy (Body.contact req) || falsy (Body.message req) = true
      /\ send_message st req
         = ret (error_response 400 "Missing contact or message"))
  \/ (exists c contact message,
         clientReady st = true /\ client st = Some c
         /\ Body.contact req = Some contact
         /\ Body.message req = Some message
         /\ contact <> "" /\ message <> ""
         /\ calls (send_message st req)
            = [SendText (send_message_chatId contact) message]
         /\ settled (send_message st req)
            = match sendText c (send_message_chatId contact) message with
              | Resolved _ =>
                  Resolved (res_json (JObject [("status", JString "ok")]))
              | Rejected e => Resolved (error_response 500 (Error.message e))
              end).
Proof.
  destruct (clientReady st) eqn:Hready;
    [|left; split; [now left | apply gate_send_message; now left]].
  destruct (client st) as [c|] eqn:Hclient;
    [|left; split; [now right | apply gate_send_message; now right]].
  assert (Hopen : ~ gate_closed st)
    by (intros [H|H]; congruence).
  right.
  destruct (falsy (Body.contact req) || falsy (Body.message req)) eqn:Hfalsy.
  - left. split; [exact Hopen | split; [reflexivity|]].
    unfold send_message. rewrite Hready, Hclient.
    destruct (Body.contact req) as [contact|], (Body.message req) as [message|];
      try reflexivity.
    simpl in Hfalsy. now rewrite Hfalsy.
  - right. apply orb_false_iff in Hfalsy as [Hc Hm].
    destruct (Body.contact req) as [contact|] eqn:Hcontact; [|discriminate].
    destruct (Body.message req) as [message|] eqn:Hmessage; [|discriminate].
    simpl in Hc, Hm. apply String.eqb_neq in Hc, Hm.
    exists c, contact, message.
    repeat (split; [assumption || reflexivity|]).
    now apply (send_message_valid st c req contact message).
Qed.

(** [/send_poll], whatever the state and the body: refused at the gate,
    refused by the validation, or one call chosen by [deliverPoll]. *)
Lemma send_poll_cases (st : ServerState) (req : Body.t) :
  (gate_closed st /\ send_poll st req = ret not_ready_response)
  \/ (~ gate_closed st
      /\ (falsy (Body.contact req) = true \/ falsy (Body.question req) = true
          \/ Body.options req = None \/ Body.options req = Some [])
      /\ send_poll st req = ret (error_response 400 "Missing required fields"))
  \/ (exists c contact question options,
         clientReady st = true /\ client st = Some c
         /\ Body.contact req = Some contact
         /\ Body.question req = Some question
         /\ Body.options req = Some options
         /\ contact <> "" /\ question <> "" /\ options <> []
         /\ send_poll st req
            = try_catch
                (deliverPoll c (send_poll_chatId contact) question options)
                (fun error =>
                   ret (error_response 500 (Error.message error)))).
Proof.
  destruct (clientReady st) eqn:Hready;
    [|left; split; [now left | apply gate_send_poll; now left]].
  destruct (client st) as [c|] eqn:Hclient;
    [|left; split; [now right | apply gate_send_poll; now right]].
  assert (Hopen : ~ gate_closed st)
    by (intros [H|H]; congruence).
  right.
  destruct (send_poll_ready st c req Hready Hclient)
    as [H400 | [contact [question [options H]]]].
  - left. split; [exact Hopen | split; [|exact H400]].
    destruct (Body.contact req) as [contact|] eqn:Hcontact; [|now left].
    destruct (Body.question req) as [question|] eqn:Hquestion;
      [|right; now left].
    destruct (Body.options req) as [[|opt options]|] eqn:Hoptions;
      [now (right; right; right) | | now (right; right; left)].
    destruct (String.eqb_spec contact "") as [->|Hc]; [now left|].
    destruct (String.eqb_spec question "") as [->|Hq]; [right; now left|].
    exfalso.
    rewrite (send_poll_valid st c req contact question (opt :: options)
               Hready Hclient Hcontact Hquestion Hoptions Hc Hq) in H400
      by discriminate.
    destruct (try_deliverPoll_run c (send_poll_chatId contact) question
                                  (opt :: options)) as [call [Hcalls _]].
    cbv zeta in Hcalls. rewrite H400 in Hcalls. discriminate Hcalls.
  - right. exists c, contact, question, options.
    destruct H as [H1 [H2 [H3 [H4 [H5 [H6 H7]]]]]].
    repeat (split; [assumption || reflexivity|]). exact H7.
Qed.

(** ** The identifiers and labels of the options *)

(** Distinct numbers print differently. *)
Lemma number_to_string_inj (n m : nat) :
  Js.number_to_string n = Js.number_to_string m -> n = m.
Proof.
  unfold Js.number_to_string. intros H.
  apply Unsigned.to_uint_inj.
  assert (Hsome : Some (Nat.to_uint n) = Some (Nat.to_uint m))
    by (rewrite <- !NilEmpty.usu; now rewrite H).
  now injection Hsome.
Qed.

(** [opt1], [opt2], ...: the identifiers of consecutive indices are
    pairwise distinct. *)
Lemma option_ids_NoDup (i n : nat) :
  NoDup (List.map (fun k => "opt" ++ Js.number_to_string (k + 1)) (seq i n)).
Proof.
  revert i. induction n as [|n IH]; intros i; simpl; constructor.
  - intros Hin. apply in_map_iff in Hin as [k [Heq Hk]].
    apply in_seq in Hk. simpl in Heq. injection Heq as Heq.
    apply number_to_string_inj in Heq. lia.
  - apply IH.
Qed.

Lemma map_map_from {A B C : Type} (g : B -> C) (f : A -> nat -> B)
      (l : list A) :
  forall i, List.map g (Js.map_from f i l)
            = Js.map_from (fun x k => g (f x k)) i l.
Proof. induction l as [|x l IH]; intros i; simpl; [reflexivity | now rewrite IH]. Qed.

Lemma map_from_element {A : Type} (l : list A) :
  forall i, Js.map_from (fun x _ => x) i l = l.
Proof. induction l as [|x l IH]; intros i; simpl; [reflexivity | now rewrite IH]. Qed.

Lemma map_from_index {A B : Type} (h : nat -> B) (l : list A) :
  forall i, Js.map_from (fun _ k => h k) i l
            = List.map h (seq i (List.length l)).
Proof. induction l as [|x l IH]; intros i; simpl; [reflexivity | now rewrite IH]. Qed.

(** The call [deliverPoll] makes: its primitive is the one the table
    names, it carries the option labels unchanged and in order, and the
    identifiers it gives them are pairwise distinct, one per option. *)
Lemma deliverPoll_call_shape (c : Client) (chatId question : string)
      (options : list string) (call : TransportCall) :
  In call (calls (deliverPoll c chatId question options)) ->
  call_method call
  = Some (decision_table (Js.endsWith chatId "@g.us") (List.length options))
  /\ call_labels call = Some options
  /\ (forall ids, call_option_ids call = Some ids ->
                  NoDup ids /\ List.length ids = List.length options).
Proof.
  unfold decision_table.
  destruct (Js.endsWith chatId "@g.us") eqn:Hgroup.
  - rewrite (deliverPoll_group c chatId question options Hgroup).
    rewrite (proj1 (await_then_respond _ _ _)).
    intros [<-|[]]. repeat split; discriminate.
  - destruct (Nat.leb_spec (List.length options) 3) as [Hlen|Hlen].
    + rewrite (deliverPoll_buttons c chatId question options Hgroup Hlen).
      rewrite (proj1 (await_then_respond _ _ _)).
      intros [<-|[]]. cbn [call_method call_labels call_option_ids].
      unfold Js.map. rewrite !map_map_from. cbn [Button.id Button.text].
      rewrite map_from_element, map_from_index.
      split; [reflexivity | split; [reflexivity|]].
      intros ids Hids. injection Hids as <-.
      split; [apply option_ids_NoDup | now rewrite length_map, length_seq].
    + rewrite (deliverPoll_list c chatId question options Hgroup Hlen).
      rewrite (proj1 (await_then_respond _ _ _)).
      intros [<-|[]]. cbn [call_method call_labels call_option_ids flat_map
                           ListSection.rows].
      rewrite !app_nil_r. unfold Js.map. rewrite !map_map_from.
      cbn [Row.rowId Row.title].
      rewrite map_from_element, map_from_index.
      split; [reflexivity | split; [reflexivity|]].
      intros ids Hids. injection Hids as <-.
      split; [apply option_ids_NoDup | now rewrite length_map, length_seq].
Qed.

(** X2.  [/send_poll] sends a native poll exactly to a contact that itself
    ends in ["@g.us"]: the computed identifier has the group suffix iff
    the contact has it (a contact without ['@'] never resolves to a
    group), and the one call of a valid request on a ready session is
    [sendPoll] iff the contact ends in ["@g.us"]. *)
Theorem native_poll_iff_group_contact
        (st : ServerState) (c : Client) (req : Body.t)
        (contact question : string) (options : list string) :
  clientReady st = true -> client st = Some c ->
  Body.contact req = Some contact ->
  Body.question req = Some question ->
  Body.options req = Some options ->
  contact <> "" -> question <> "" -> options <> [] ->
  Js.endsWith (send_poll_chatId contact) "@g.us" = Js.endsWith contact "@g.us"
  /\ List.map is_native_poll (calls (send_poll st req))
     = [Js.endsWith contact "@g.us"].
Proof.
  intros Hready Hclient Hcontact Hquestion Hoptions Hc Hq Ho.
  split; [apply send_poll_chatId_group|].
  rewrite (send_poll_valid st c req contact question options
             Hready Hclient Hcontact Hquestion Hoptions Hc Hq Ho).
  rewrite (proj1 (try_catch_respond _ _)).
  rewrite <- (send_poll_chatId_group contact).
  destruct (Js.endsWith (send_poll_chatId contact) "@g.us") eqn:Hgroup.
  - rewrite (deliverPoll_group c _ question options Hgroup).
    now rewrite (proj1 (await_then_respond _ _ _)).
  - destruct (Nat.leb_spec (List.length options) 3) as [Hlen|Hlen].
    + rewrite (deliverPoll_buttons c _ question options Hgroup Hlen).
      now rewrite (proj1 (await_then_respond _ _ _)).
    + rewrite (deliverPoll_list c _ question options Hgroup Hlen).
      now rewrite (proj1 (await_then_respond _ _ _)).
Qed.

Lemma native_poll_iff_group_contact_witness :
  (Js.endsWith (send_poll_chatId "+31 6 12345678 g.us") "@g.us" = false
   /\ List.map is_native_poll
        (calls (send_poll (ready_with resolving_client)
                          (poll_request "+31 6 12345678 g.us" "Pizza?"
                                        ["Yes"; "No"])))
      = [false])
  /\ List.map is_native_poll
       (calls (send_poll (ready_with resolving_client)
                         (poll_request "31612345678-1500000000@g.us" "Pizza?"
                                       ["Yes"; "No"])))
     = [true].
Proof.
  split.
  - apply (native_poll_iff_group_contact
             (ready_with resolving_client) resolving_client
             (poll_request "+31 6 12345678 g.us" "Pizza?" ["Yes"; "No"])
             "+31 6 12345678 g.us" "Pizza?" ["Yes"; "No"]);
      try reflexivity; discriminate.
  - apply (native_poll_iff_group_contact
             (ready_with resolving_client) resolving_client
             (poll_request "31612345678-1500000000@g.us" "Pizza?"
                           ["Yes"; "No"])
             "31612345678-1500000000@g.us" "Pizza?" ["Yes"; "No"]);
      try reflexivity; discriminate.
Defined.

(** X3.  Resolving is idempotent: the identifier either handler computes
    is resolved to itself by the same handler, and the identifier of
    [/send_poll] always contains ['@']. *)
Theorem chatId_idempotent (contact : string) :
  send_poll_chatId (send_poll_chatId contact) = send_poll_chatId contact
  /\ send_message_chatId (send_message_chatId contact)
     = send_message_chatId contact
  /\ Js.includes (send_poll_chatId contact) "@" = true.
Proof.
  assert (Hat : Js.includes (send_poll_chatId contact) "@" = true).
  { destruct (Js.includes contact "@") eqn:H.
    - now rewrite (send_poll_chatId_passthrough contact H).
    - rewrite (send_poll_chatId_digits contact H).
      apply send_message_chatId_includes_at. }
  split; [now apply send_poll_chatId_passthrough | split; [|exact Hat]].
  apply send_message_chatId_fixed.
  exists (Js.replace Js.non_digit "" contact).
  split; [apply replace_non_digit_all_digits | reflexivity].
Qed.

(** X4.  The identifier [/send_message] computes depends on the digits of
    the contact only: two contacts get the same identifier iff they have
    the same digits in the same order, whatever stands between them; the
    same holds in [/send_poll] for contacts without ['@']. *)
Theorem chatId_depends_on_digits_only (a b : string) :
  (send_message_chatId a = send_message_chatId b
   <-> filter Js.digit (list_ascii_of_string a)
       = filter Js.digit (list_ascii_of_string b))
  /\ (Js.includes a "@" = false -> Js.includes b "@" = false ->
      (send_poll_chatId a = send_poll_chatId b
       <-> filter Js.digit (list_ascii_of_string a)
           = filter Js.digit (list_ascii_of_string b))).
Proof.
  assert (Hmessage :
    send_message_chatId a = send_message_chatId b
    <-> filter Js.digit (list_ascii_of_string a)
        = filter Js.digit (list_ascii_of_string b)).
  { unfold send_message_chatId. rewrite <- !replace_non_digit_filter. split.
    - intros H. apply append_inj_r in H. now rewrite H.
    - intros H. apply (f_equal string_of_list_ascii) in H.
      rewrite !string_of_list_ascii_of_string in H. now rewrite H. }
  split; [exact Hmessage|].
  intros Ha Hb.
  now rewrite (send_poll_chatId_digits a Ha), (send_poll_chatId_digits b Hb).
Qed.

Lemma chatId_depends_on_digits_only_witness :
  send_message_chatId "+31 6 87758933" = send_message_chatId "31-687-758-933"
  /\ send_poll_chatId "+31 6 87758933" = send_poll_chatId "31-687-758-933".
Proof.
  destruct (chatId_depends_on_digits_only "+31 6 87758933" "31-687-758-933")
    as [Hmessage Hpoll].
  split.
  - apply Hmessage. reflexivity.
  - apply (Hpoll eq_refl eq_refl). reflexivity.
Defined.

(** X5.  [/send_message] never addresses a group: whatever the state and
    the body, every call it makes is a [sendText] of the body's message,
    unchanged, to an identifier that ends in ["@c.us"] and not in
    ["@g.us"]. *)
Theorem send_message_never_addresses_group
        (st : ServerState) (req : Body.t) (call : TransportCall) :
  In call (calls (send_message st req)) ->
  exists chatId message,
    call = SendText chatId message
    /\ Body.message req = Some message
    /\ Js.endsWith chatId "@c.us" = true
    /\ Js.endsWith chatId "@g.us" = false.
Proof.
  destruct (send_message_cases st req)
    as [[_ H] | [[_ [_ H]] | [c [contact [message H]]]]].
  - rewrite H. intros [].
  - rewrite H. intros [].
  - destruct H as [_ [_ [_ [Hmessage [_ [_ [Hcalls _]]]]]]].
    rewrite Hcalls. intros [<-|[]].
    exists (send_message_chatId contact), message.
    split; [reflexivity | split; [exact Hmessage | split]].
    + apply send_message_chatId_direct.
    + apply direct_suffix_not_group, send_message_chatId_direct.
Qed.

Lemma send_message_never_addresses_group_witness :
  exists chatId message,
    SendText "316123456781500000000@c.us" "Hello" = SendText chatId message
    /\ Body.message (message_request "31612345678-1500000000@g.us" "Hello")
       = Some message
    /\ Js.endsWith chatId "@c.us" = true
    /\ Js.endsWith chatId "@g.us" = false.
Proof.
  apply (send_message_never_addresses_group
           (ready_with resolving_client)
           (message_request "31612345678-1500000000@g.us" "Hello")).
  left. reflexivity.
Defined.

(** X6.  Every call [/send_poll] makes carries the option labels of the
    body unchanged and in order, whichever primitive is chosen; the
    identifiers that buttons and list rows give the options are pairwise
    distinct, one per option. *)
Theorem poll_call_carries_options
        (st : ServerState) (req : Body.t) (call : TransportCall) :
  In call (calls (send_poll st req)) ->
  exists options,
    Body.options req = Some options
    /\ call_labels call = Some options
    /\ (forall ids, call_option_ids call = Some ids ->
                    NoDup ids /\ List.length ids = List.length options).
Proof.
  destruct (send_poll_cases st req)
    as [[_ H] | [[_ [_ H]] | [c [contact [question [options H]]]]]].
  - rewrite H. intros [].
  - rewrite H. intros [].
  - destruct H as [_ [_ [_ [_ [Hoptions [_ [_ [_ Hrun]]]]]]]].
    rewrite Hrun, (proj1 (try_catch_respond _ _)). intros Hin.
    exists options. split; [exact Hoptions|].
    apply (deliverPoll_call_shape c (send_poll_chatId contact) question
                                  options call Hin).
Qed.

Lemma poll_call_carries_options_witness :
  exists options,
    Body.options (poll_request "31612345678" "Pizza?"
                               (List.repeat "Same" 12)) = Some options
    /\ call_labels
         (SendListMessage "31612345678@c.us"
            [{| ListSection.title := "Options";
                ListSection.rows :=
                  Js.map (fun opt i =>
                            {| Row.rowId := "opt" ++ Js.number_to_string (i + 1);
                               Row.title := opt |})
                         (List.repeat "Same" 12) |}]
            "Poll" "Pizza?" "Choose an option") = Some options
    /\ (forall ids,
           call_option_ids
             (SendListMessage "31612345678@c.us"
                [{| ListSection.title := "Options";
                    ListSection.rows :=
                      Js.map (fun opt i =>
                                {| Row.rowId :=
                                     "opt" ++ Js.number_to_string (i + 1);
                                   Row.title := opt |})
                             (List.repeat "Same" 12) |}]
                "Poll" "Pizza?" "Choose an option") = Some ids ->
           NoDup ids /\ List.length ids = List.length options).
Proof.
  apply (poll_call_carries_options
           (ready_with resolving_client)
           (poll_request "31612345678" "Pizza?" (List.repeat "Same" 12))).
  left. reflexivity.
Defined.

(** ** Group enumeration *)

(** [/get_groups] on a ready session. *)
Lemma get_groups_ready (st : ServerState) (c : Client) :
  clientReady st = true -> client st = Some c ->
  calls (get_groups st) = [GetAllChats]
  /\ settled (get_groups st)
     = match getAllChats c with
       | Resolved chats =>
           Resolved
             (res_json
                (JObject [("status", JString "ok");
                          ("groups",
                           JArray (List.map group_entry
                                     (List.filter Chat.isGroup chats)))]))
       | Rejected e => Resolved (error_response 500 (Error.message e))
       end.
Proof.
  intros Hready Hclient. unfold get_groups. rewrite Hready, Hclient.
  unfold try_catch, bind, await, ret; cbn.
  destruct (getAllChats c); split; reflexivity.
Qed.

(** X7.  [/get_groups] on a ready session makes the one call
    [getAllChats].  When it rejects, the answer is HTTP 500 with the
    error's message.  When it resolves, the answer is HTTP 200 with a
    [groups] array that lists exactly the group chats (a chat that is not a
    group never appears), so at most as many entries as chats, and the
    empty array when no chat is a group. *)
Theorem get_groups_lists_exactly_groups (st : ServerState) (c : Client) :
  clientReady st = true -> client st = Some c ->
  calls (get_groups st) = [GetAllChats]
  /\ (forall e, getAllChats c = Rejected e ->
                settled (get_groups st)
                = Resolved (error_response 500 (Error.message e)))
  /\ (forall chats,
         getAllChats c = Resolved chats ->
         exists groups,
           settled (get_groups st)
           = Resolved (res_json (JObject [("status", JString "ok");
                                          ("groups", JArray groups)]))
           /\ (forall entry,
                  In entry groups
                  <-> exists g, In g chats /\ Chat.isGroup g = true
                                /\ entry = group_entry g)
           /\ List.length groups <= List.length chats
           /\ ((forall g, In g chats -> Chat.isGroup g = false) ->
               groups = [])).
Proof.
  intros Hready Hclient.
  destruct (get_groups_ready st c Hready Hclient) as [Hcalls Hsettled].
  split; [exact Hcalls | split].
  - intros e He. now rewrite Hsettled, He.
  - intros chats Hchats. rewrite Hsettled, Hchats.
    exists (List.map group_entry (List.filter Chat.isGroup chats)).
    split; [reflexivity | split; [|split]].
    + intros entry. rewrite in_map_iff. split.
      * intros [g [<- Hg]]. apply filter_In in Hg as [Hin Hgroup].
        now exists g.
      * intros [g [Hin [Hgroup ->]]]. exists g.
        split; [reflexivity | now apply filter_In].
    + rewrite length_map. apply filter_length_le.
    + intros Hnone.
      assert (Hempty : List.filter Chat.isGroup chats = []).
      { clear Hchats Hsettled. induction chats as [|g chats IH]; [reflexivity|].
        simpl. rewrite (Hnone g (or_introl eq_refl)).
        apply IH. intros g' Hg'. apply Hnone. now right. }
      now rewrite Hempty.
Qed.

Lemma get_groups_lists_exactly_groups_witness :
  calls (get_groups (ready_with two_chats_client)) = [GetAllChats]
  /\ settled (get_groups (ready_with two_chats_client))
     = Resolved
         (res_json
            (JObject
               [("status", JString "ok");
                ("groups",
                 JArray [JObject [("name", JString "Family");
                                  ("id", JString "31612345678-1500000000@g.us");
                                  ("members", JNumber 0)]])]))
  /\ settled (get_groups (ready_with (rejecting_client "Session closed")))
     = Resolved (error_response 500 "Session closed").
Proof.
  destruct (get_groups_lists_exactly_groups
              (ready_with two_chats_client) two_chats_client eq_refl eq_refl)
    as [Hcalls _].
  split; [exact Hcalls | split; [reflexivity|]].
  apply (proj1 (proj2 (get_groups_lists_exactly_groups
                         (ready_with (rejecting_client "Session closed"))
                         (rejecting_client "Session closed")
                         eq_refl eq_refl))
           {| Error.message := "Session closed" |}).
  reflexivity.
Defined.

(** ** Validation and response codes *)



(** X9.  [/send_poll] answers HTTP 200 only after a call on the client
    that resolved, and then names in [method] the primitive it called; and
    whenever the call it makes resolves, that is its answer. *)
Theorem send_poll_ok_iff_call_resolved (st : ServerState) (req : Body.t) :
  (forall r,
      settled (send_poll st req) = Resolved r -> statusCode r = 200 ->
      exists c call method,
        client st = Some c
        /\ calls (send_poll st req) = [call]
        /\ transport_result c call = Resolved tt
        /\ call_method call = Some method
        /\ r = ok_method method)
  /\ (forall c call,
         client st = Some c -> In call (calls (send_poll st req)) ->
         transport_result c call = Resolved tt ->
         exists method,
           call_method call = Some method
           /\ settled (send_poll st req) = Resolved (ok_method method)).
Proof.
  assert (Hvalid :
    forall c contact question options,
      send_poll st req
      = try_catch (deliverPoll c (send_poll_chatId contact) question options)
          (fun error => ret (error_response 500 (Error.message error))) ->
      exists call method,
        calls (send_poll st req) = [call]
        /\ call_method call = Some method
        /\ settled (send_poll st req)
           = match transport_result c call with
             | Resolved _ => Resolved (ok_method method)
             | Rejected e => Resolved (error_response 500 (Error.message e))
             end).
  { intros c contact question options Hrun.
    destruct (try_deliverPoll_run c (send_poll_chatId contact) question
                                  options) as [call [Hcalls [_ Hsettled]]].
    cbv zeta in Hcalls, Hsettled. rewrite <- Hrun in Hcalls, Hsettled.
    assert (Hin : In call (calls (deliverPoll c (send_poll_chatId contact)
                                              question options))).
    { rewrite <- (proj1 (try_catch_respond _
                    (fun e => error_response 500 (Error.message e)))).
      rewrite <- Hrun, Hcalls. now left. }
    destruct (deliverPoll_call_shape c _ question options call Hin)
      as [Hmethod _].
    eexists call, _. split; [exact Hcalls | split; [exact Hmethod|]].
    exact Hsettled. }
  destruct (send_poll_cases st req)
    as [[_ H] | [[_ [_ H]] | [c [contact [question [options H]]]]]].
  - rewrite H. split.
    + intros r Hr Hcode. injection Hr as <-. discriminate Hcode.
    + intros c call _ [].
  - rewrite H. split.
    + intros r Hr Hcode. injection Hr as <-. discriminate Hcode.
    + intros c call _ [].
  - destruct H as [_ [Hclient [_ [_ [_ [_ [_ [_ Hrun]]]]]]]].
    destruct (Hvalid c contact question options Hrun)
      as [call [method [Hcalls [Hmethod Hsettled]]]].
    split.
    + intros r Hr Hcode. exists c, call, method.
      rewrite Hsettled in Hr.
      destruct (transport_result c call) as [[]|e].
      * injection Hr as <-. repeat split; assumption.
      * injection Hr as <-. discriminate Hcode.
    + intros c' call' Hclient' Hin Hresolved.
      rewrite Hclient in Hclient'. injection Hclient' as <-.
      rewrite Hcalls in Hin. destruct Hin as [<-|[]].
      exists method. split; [exact Hmethod|].
      now rewrite Hsettled, Hresolved.
Qed.

Lemma send_poll_ok_iff_call_resolved_witness :
  exists method,
    call_method (SendPoll "31612345678-1500000000@g.us" "Pizza?" ["Yes"; "No"])
    = Some method
    /\ settled (send_poll (ready_with resolving_client)
                          (poll_request "31612345678-1500000000@g.us"
                                        "Pizza?" ["Yes"; "No"]))
       = Resolved (ok_method method).
Proof.
  apply (proj2 (send_poll_ok_iff_call_resolved
                  (ready_with resolving_client)
                  (poll_request "31612345678-1500000000@g.us" "Pizza?"
                                ["Yes"; "No"]))
           resolving_client
           (SendPoll "31612345678-1500000000@g.us" "Pizza?" ["Yes"; "No"])).
  - reflexivity.
  - left. reflexivity.
  - reflexivity.
Defined.

(** X10.  [/send_message] answers HTTP 200 only after the one call
    [sendText(chatId, message)] resolved, [message] being the body's,
    unchanged; whenever that call resolves the answer is
    [{ status: "ok" }], and whenever it rejects the answer is HTTP 500 with
    the error's message. *)
Theorem send_message_ok_iff_sent (st : ServerState) (req : Body.t) :
  (forall r,
      settled (send_message st req) = Resolved r -> statusCode r = 200 ->
      exists c contact message,
        client st = Some c
        /\ Body.contact req = Some contact
        /\ Body.message req = Some message
        /\ calls (send_message st req)
           = [SendText (send_message_chatId contact) message]
        /\ sendText c (send_message_chatId contact) message = Resolved tt
        /\ r = res_json (JObject [("status", JString "ok")]))
  /\ (forall c call,
         client st = Some c -> In call (calls (send_message st req)) ->
         transport_result c call = Resolved tt ->
         settled (send_message st req)
         = Resolved (res_json (JObject [("status", JString "ok")])))
  /\ (forall c call e,
         client st = Some c -> In call (calls (send_message st req)) ->
         transport_result c call = Rejected e ->
         settled (send_message st req)
         = Resolved (error_response 500 (Error.message e))).
Proof.
  destruct (send_message_cases st req)
    as [[_ H] | [[_ [_ H]] | [c [contact [message H]]]]].
  - rewrite H. split; [|split].
    + intros r Hr Hcode. injection Hr as <-. discriminate Hcode.
    + intros c call _ [].
    + intros c call e _ [].
  - rewrite H. split; [|split].
    + intros r Hr Hcode. injection Hr as <-. discriminate Hcode.
    + intros c call _ [].
    + intros c call e _ [].
  - destruct H as [_ [Hclient [Hcontact [Hmessage [_ [_ [Hcalls Hsettled]]]]]]].
    rewrite Hcalls, Hsettled. split; [|split].
    + intros r Hr Hcode. exists c, contact, message.
      destruct (sendText c (send_message_chatId contact) message) as [[]|e].
      * injection Hr as <-. repeat split; assumption.
      * injection Hr as <-. discriminate Hcode.
    + intros c' call Hclient' [<-|[]] Hresolved.
      rewrite Hclient in Hclient'. injection Hclient' as <-.
      simpl in Hresolved. now rewrite Hresolved.
    + intros c' call e Hclient' [<-|[]] Hrejected.
      rewrite Hclient in Hclient'. injection Hclient' as <-.
      simpl in Hrejected. now rewrite Hrejected.
Qed.

Lemma send_message_ok_iff_sent_witness :
  settled (send_message (ready_with (rejecting_client "Session closed"))
                        (message_request "+31 6 87758933" "Hello"))
  = Resolved (error_response 500 "Session closed")
  /\ settled (send_message (ready_with resolving_client)
                           (message_request "+31 6 87758933" "Hello"))
     = Resolved (res_json (JObject [("status", JString "ok")])).
Proof.
  split.
  - apply (proj2 (proj2 (send_message_ok_iff_sent
                           (ready_with (rejecting_client "Session closed"))
                           (message_request "+31 6 87758933" "Hello")))
             (rejecting_client "Session closed")
             (SendText "31687758933@c.us" "Hello")
             {| Error.message := "Session closed" |}).
    + reflexivity.
    + left. reflexivity.
    + reflexivity.
  - apply (proj1 (proj2 (send_message_ok_iff_sent
                           (ready_with resolving_client)
                           (message_request "+31 6 87758933" "Hello")))
             resolving_client (SendText "31687758933@c.us" "Hello")).
    + reflexivity.
    + left. reflexivity.
    + reflexivity.
Defined.


(** ** The session lifecycle *)

(** In every state the module variables go through, [clientReady] is set
    only when a client is stored. *)
Lemma reachable_ready_has_client (st : ServerState) :
  reachable st -> clientReady st = true -> exists c, client st = Some c.
Proof.
  intros Hreach. destruct Hreach as [|create onMessage st Hreach].
  - discriminate.
  - intros Hready.
    destruct (initializeClient_ready create onMessage st Hready)
      as [c [_ Hclient]].
    now exists c.
Qed.

(** X12.  The guards agree on every state the server goes through:
    [/open_whatsapp], which tests [clientReady] alone, answers
    [{ status: "ok" }] exactly when the guard [!clientReady || !client] of
    the other handlers lets a request through, and the not-ready error
    exactly when that guard refuses. *)
Theorem reachable_guards_agree (st : ServerState) :
  reachable st ->
  (gate_closed st <-> clientReady st = false)
  /\ (settled (open_whatsapp st)
      = Resolved (res_json (JObject [("status", JString "ok")]))
      <-> ~ gate_closed st)
  /\ (settled (open_whatsapp st) = Resolved not_ready_response
      <-> gate_closed st).
Proof.
  intros Hreach.
  assert (Hgate : gate_closed st <-> clientReady st = false).
  { split; [|now left]. intros [H|H]; [exact H|].
    destruct (clientReady st) eqn:Hready; [|reflexivity].
    destruct (reachable_ready_has_client st Hreach Hready) as [c Hc].
    congruence. }
  split; [exact Hgate|]. rewrite Hgate. unfold open_whatsapp.
  destruct (clientReady st); simpl; split; split;
    solve [ discriminate | reflexivity | congruence
          | intros H; exfalso; now apply H ].
Qed.

Lemma reachable_guards_agree_witness :
  settled (open_whatsapp
             (initializeClient (Resolved resolving_client)
                               (fun _ => Resolved tt) initial_state))
  = Resolved (res_json (JObject [("status", JString "ok")]))
  <-> ~ gate_closed (initializeClient (Resolved resolving_client)
                                      (fun _ => Resolved tt) initial_state).
Proof.
  apply (reachable_guards_agree
           (initializeClient (Resolved resolving_client)
                             (fun _ => Resolved tt) initial_state)).
  apply reachable_initialized. apply reachable_initial.
Defined.


